(** * The authenticated API client of the mobile app

    A shallow embedding of [mobile/services/api.ts] (the token store wrapper,
    the two axios interceptors and the [AuthAPI] facade) and of
    [mobile/context/AuthContext.tsx] (the session state manager), with the
    properties of the token refresh protocol proved about them.  The video
    facade, the navigation guard of [app/_layout.tsx] and the handlers of
    the screens follow, on top of the same model.

    The asynchronous code is a single task on the event loop: every [await]
    is sequenced in a state-and-exception monad over a [World] that holds
    the secure store, the React state and the trace of everything the task
    did.  The two external collaborators, the platform key-value store and
    the HTTP backend, are an oracle [Env]: it decides, from the trace so far,
    whether a storage operation throws and what the backend replies. *)

From stdpp Require Import gmap strings list.

Open Scope string_scope.
Open Scope list_scope.
Open Scope Z_scope.

(** ** JavaScript values *)

(** The values that flow through the client untyped: response payloads
    ([response.data] is [any] for the refresh call), what the secure store
    hands back ([string | null]) and the session user ([User | null]). *)
#[warnings="-register-all"] Inductive JsVal : Type :=
| JsUndefined
| JsNull
| JsString (s : string)
| JsObject (fields : list (string * JsVal)).

(** [if (v)], [!!v], [v || w]: the falsy values are [undefined], [null] and
    the empty string. *)
Definition truthy (v : JsVal) : bool :=
  match v with
  | JsUndefined | JsNull => false
  | JsString s => negb (String.eqb s EmptyString)
  | JsObject _ => true
  end.

Definition js_or (v w : JsVal) : JsVal := if truthy v then v else w.

(** Interpolation in a template literal, [`${v}`]. *)
Definition to_string (v : JsVal) : string :=
  match v with
  | JsUndefined => "undefined"
  | JsNull => "null"
  | JsString s => s
  | JsObject _ => "[object Object]"
  end.

Fixpoint assoc (k : string) (fields : list (string * JsVal)) : option JsVal :=
  match fields with
  | [] => None
  | (k', v) :: rest => if String.eqb k k' then Some v else assoc k rest
  end.

(** Property read [v.k].  [None] is the [TypeError] of reading a property of
    [undefined] or [null]; a property that is not there reads [undefined]. *)
Definition get_prop (v : JsVal) (k : string) : option JsVal :=
  match v with
  | JsUndefined | JsNull => None
  | JsString _ => Some JsUndefined
  | JsObject fields => Some (default JsUndefined (assoc k fields))
  end.

(** ** Requests, responses and errors *)

Inductive Method := GET | POST.

(** An axios request config, with the [_retry] marker the inbound hook adds
    to it ([_retry?: boolean], absent reads as [false]).  [body] is the
    config's [data] field. *)
Record AxiosRequestConfig := {
  method : Method;
  url : string;
  body : JsVal;
  headers : gmap string string;
  _retry : bool;
}.

Record AxiosResponse := {
  status : Z;
  data : JsVal;
}.

(** Which axios instance a request leaves on: [api], created with the base
    URL and carrying both interceptors, or the library's global [axios],
    which carries none. *)
Inductive Instance := ApiInstance | GlobalAxios.

(** What can be thrown.  An [AxiosError] carries the config of the failed
    request and, when the backend answered, its response. *)
Inductive JsError :=
| AxiosError (config : option AxiosRequestConfig) (response : option AxiosResponse)
| SecureStoreError
| TypeError.

(** ** The world *)

Inductive StoreOp :=
| GetItem (key : string)
| SetItem (key : string) (value : string)
| DeleteItem (key : string).

Inductive Event :=
| Store (op : StoreOp)
| Wire (inst : Instance) (config : AxiosRequestConfig)
| SetUser (u : JsVal)
| SetIsLoading (b : bool).

Inductive ServerReply :=
| Reply (status : Z) (data : JsVal)
| NoReply.

(** The environment: given the trace so far, does this storage operation
    throw, and what does the backend answer to this request ([NoReply] is a
    network error or a timeout). *)
Record Env := {
  storage_fault : list Event -> StoreOp -> bool;
  server : list Event -> Instance -> AxiosRequestConfig -> ServerReply;
}.

(** [user] and [isLoading] are the two [useState] cells of [AuthProvider]. *)
Record World := {
  store : gmap string string;
  user : JsVal;
  isLoading : bool;
  log : list Event;
}.

Definition record_event (e : Event) (w : World) : World :=
  {| store := store w; user := user w; isLoading := isLoading w;
     log := log w ++ [e] |}.

Definition with_store (s : gmap string string) (w : World) : World :=
  {| store := s; user := user w; isLoading := isLoading w; log := log w |}.

Definition with_user (u : JsVal) (w : World) : World :=
  {| store := store w; user := u; isLoading := isLoading w; log := log w |}.

Definition with_isLoading (b : bool) (w : World) : World :=
  {| store := store w; user := user w; isLoading := b; log := log w |}.

(** [useState<User | null>(null)], [useState(true)], nothing stored. *)
Definition initial_world : World :=
  {| store := ∅; user := JsNull; isLoading := true; log := [] |}.

(** ** The monad of an async task *)

(** [OutOfFuel] is not a JavaScript outcome: it marks a run of the model
    that was cut off by the recursion bound of [api], and no [catch] or
    [finally] sees it. *)
Inductive Outcome (A : Type) :=
| Return (a : A)
| Throw (e : JsError)
| OutOfFuel.
Arguments Return {A} a.
Arguments Throw {A} e.
Arguments OutOfFuel {A}.

Definition M (A : Type) : Type := World -> World * Outcome A.

#[global] Instance M_ret : MRet M := fun A a w => (w, Return a).

#[global] Instance M_bind : MBind M := fun A B f m w =>
  match m w with
  | (w1, Return a) => f a w1
  | (w1, Throw e) => (w1, Throw e)
  | (w1, OutOfFuel) => (w1, OutOfFuel)
  end.

Definition throw {A} (e : JsError) : M A := fun w => (w, Throw e).

(** [try { body } catch (e) { handler e }] *)
Definition try_catch {A} (body : M A) (handler : JsError -> M A) : M A :=
  fun w =>
    match body w with
    | (w1, Throw e) => handler e w1
    | r => r
    end.

(** [try { body } finally { fin }]: [fin] runs whatever [body] did, and the
    outcome of [body], a thrown error included, stands unless [fin] itself
    throws. *)
Definition try_finally {A} (body : M A) (fin : M unit) : M A :=
  fun w =>
    match body w with
    | (w1, OutOfFuel) => (w1, OutOfFuel)
    | (w1, r) =>
        match fin w1 with
        | (w2, Return _) => (w2, r)
        | (w2, Throw e) => (w2, Throw e)
        | (w2, OutOfFuel) => (w2, OutOfFuel)
        end
    end.

(** [promise.then(onFulfilled, onRejected)]: one of the two handlers runs,
    and [onRejected] does not see what [onFulfilled] throws. *)
Definition promise_then {A B} (promise : M A)
    (onFulfilled : A -> M B) (onRejected : JsError -> M B) : M B :=
  fun w =>
    match promise w with
    | (w1, Return a) => onFulfilled a w1
    | (w1, Throw e) => onRejected e w1
    | (w1, OutOfFuel) => (w1, OutOfFuel)
    end.

(** [v.k] inside a task: the [TypeError] becomes a rejection. *)
Definition prop (v : JsVal) (k : string) : M JsVal :=
  match get_prop v k with
  | Some x => mret x
  | None => throw TypeError
  end.

(** ** expo-secure-store *)

(** The platform store as the client uses it: a map from keys to strings in
    which every operation may throw.  [setItemAsync] rejects a value that is
    not a string before it touches the store. *)
Module SecureStore.
Section SecureStore.
Variable env : Env.

Definition getItemAsync (key : string) : M JsVal := fun w =>
  let w1 := record_event (Store (GetItem key)) w in
  if storage_fault env (log w) (GetItem key) then (w1, Throw SecureStoreError)
  else (w1, Return (from_option JsString JsNull (store w !! key))).

Definition setItemAsync (key : string) (value : JsVal) : M unit := fun w =>
  match value with
  | JsString s =>
      let w1 := record_event (Store (SetItem key s)) w in
      if storage_fault env (log w) (SetItem key s) then (w1, Throw SecureStoreError)
      else (with_store (<[key := s]> (store w)) w1, Return tt)
  | _ => (w, Throw SecureStoreError)
  end.

Definition deleteItemAsync (key : string) : M unit := fun w =>
  let w1 := record_event (Store (DeleteItem key)) w in
  if storage_fault env (log w) (DeleteItem key) then (w1, Throw SecureStoreError)
  else (with_store (delete key (store w)) w1, Return tt).
End SecureStore.
End SecureStore.

(** ** api.ts *)

Definition API_BASE_URL : string := "http://10.0.2.2:5000".

Definition ACCESS_TOKEN_KEY : string := "access_token".
Definition REFRESH_TOKEN_KEY : string := "refresh_token".

Module TokenService.
Section TokenService.
Variable env : Env.

Definition getAccessToken : M JsVal :=
  try_catch (SecureStore.getItemAsync env ACCESS_TOKEN_KEY)
            (fun _ => mret JsNull).

Definition getRefreshToken : M JsVal :=
  try_catch (SecureStore.getItemAsync env REFRESH_TOKEN_KEY)
            (fun _ => mret JsNull).

Definition setTokens (accessToken refreshToken : JsVal) : M unit :=
  SecureStore.setItemAsync env ACCESS_TOKEN_KEY accessToken;;
  SecureStore.setItemAsync env REFRESH_TOKEN_KEY refreshToken.

Definition clearTokens : M unit :=
  SecureStore.deleteItemAsync env ACCESS_TOKEN_KEY;;
  SecureStore.deleteItemAsync env REFRESH_TOKEN_KEY.
End TokenService.
End TokenService.

(** [axios.create({ baseURL, headers: { 'Content-Type': ... }, timeout })]:
    the instance defaults, which are the [Content-Type] given here over
    the [Accept] axios gives every instance, are merged under every config
    [api] is called with; the request's own headers win. *)
Definition api_default_headers : gmap string string :=
  {[ "Accept" := "application/json, text/plain, */*";
     "Content-Type" := "application/json" ]}.

Definition mergeConfig (config : AxiosRequestConfig) : AxiosRequestConfig :=
  {| method := method config; url := url config; body := body config;
     headers := headers config ∪ api_default_headers;
     _retry := _retry config |}.

Definition set_header (name value : string) (config : AxiosRequestConfig)
  : AxiosRequestConfig :=
  {| method := method config; url := url config; body := body config;
     headers := <[name := value]> (headers config);
     _retry := _retry config |}.

Definition set_retry (config : AxiosRequestConfig) : AxiosRequestConfig :=
  {| method := method config; url := url config; body := body config;
     headers := headers config; _retry := true |}.

(** axios' default [validateStatus]. *)
Definition validateStatus (s : Z) : bool := (200 <=? s) && (s <? 300).

(** axios' [settle]: a reply with a status outside 2xx and a missing reply
    both reject with an [AxiosError] that carries the config that was sent. *)
Definition settle (config : AxiosRequestConfig) (reply : ServerReply)
  : Outcome AxiosResponse :=
  match reply with
  | Reply s d =>
      let response := {| status := s; data := d |} in
      if validateStatus s then Return response
      else Throw (AxiosError (Some config) (Some response))
  | NoReply => Throw (AxiosError (Some config) None)
  end.

Section Transport.
Variable env : Env.

(** A request leaving on the wire of [inst]. *)
Definition dispatch (inst : Instance) (config : AxiosRequestConfig)
  : M AxiosResponse := fun w =>
  (record_event (Wire inst config) w, settle config (server env (log w) inst config)).

(** [axios.post(url, data)] on the global instance: no interceptors. *)
Definition axios_post (u : string) (d : JsVal) : M AxiosResponse :=
  dispatch GlobalAxios
    {| method := POST; url := u; body := d; headers := ∅; _retry := false |}.

(** Request interceptor - add auth token.  Its second handler,
    [(error) => Promise.reject(error)], only rethrows what an earlier
    request interceptor rejected; there is none. *)
Definition request_interceptor (config : AxiosRequestConfig)
  : M AxiosRequestConfig :=
  token ← TokenService.getAccessToken env;
  if truthy token
  then mret (set_header "Authorization" ("Bearer " +:+ to_string token) config)
  else mret config.

Definition response_fulfilled (response : AxiosResponse) : M AxiosResponse :=
  mret response.

(** The body of the [try] of the response interceptor.  [Some request] is
    [return api(request)]: the promise of the resubmission is handed back
    without being awaited, so it settles outside the [try] and its
    rejection is not caught there.  [None] is falling out of the [try].
    [JsString EmptyString] is the [''] of [currentRefreshToken || '']. *)
Definition refresh_tokens (originalRequest : AxiosRequestConfig)
  : M (option AxiosRequestConfig) :=
  refreshToken ← TokenService.getRefreshToken env;
  if truthy refreshToken then
    response ← axios_post (API_BASE_URL +:+ "/auth/refresh")
                 (JsObject [("refresh_token", refreshToken)]);
    access_token ← prop (data response) "access_token";
    currentRefreshToken ← TokenService.getRefreshToken env;
    TokenService.setTokens env access_token
      (js_or currentRefreshToken (JsString EmptyString));;
    mret (Some (set_header "Authorization"
                  ("Bearer " +:+ to_string access_token) originalRequest))
  else mret None.

(** Response interceptor - handle token refresh.  [api] is the instance
    the retried request is resubmitted on.  [error.config] and
    [originalRequest] are one object, so the marker set on the request
    shows in the error that is rejected at the end.  Setting the marker
    on a missing config is a [TypeError] outside the [try]; past it
    [if (originalRequest)] always holds. *)
Definition response_rejected
    (api : AxiosRequestConfig -> M AxiosResponse) (error : JsError)
  : M AxiosResponse :=
  match error with
  | AxiosError config response =>
      let is401 := from_option (fun r => status r =? 401) false response in
      let retried := from_option _retry false config in
      if is401 && negb retried then
        match config with
        | None => throw TypeError
        | Some config =>
            let originalRequest := set_retry config in
            let error := AxiosError (Some originalRequest) response in
            resubmit ← try_catch (refresh_tokens originalRequest)
                         (fun _ => TokenService.clearTokens env;; mret None);
            match resubmit with
            | Some request => api request
            | None => throw error
            end
        end
      else throw error
  | _ => throw error
  end.

(** Calling the instance: [api(config)].  The instance defaults are merged
    in, the outbound hook runs, the request leaves, and the two handlers of
    the inbound hook are chained on its promise; the second may call the
    instance again, and [fuel] bounds that recursion. *)
Fixpoint api (fuel : nat) (config : AxiosRequestConfig) : M AxiosResponse :=
  match fuel with
  | O => fun w => (w, OutOfFuel)
  | S fuel' =>
      config ← request_interceptor (mergeConfig config);
      promise_then (dispatch ApiInstance config)
        response_fulfilled (response_rejected (api fuel'))
  end.

Definition api_get (fuel : nat) (u : string) : M AxiosResponse :=
  api fuel {| method := GET; url := u; body := JsUndefined;
              headers := ∅; _retry := false |}.

Definition api_post (fuel : nat) (u : string) (d : JsVal) : M AxiosResponse :=
  api fuel {| method := POST; url := u; body := d;
              headers := ∅; _retry := false |}.
End Transport.

Module AuthAPI.
Section AuthAPI.
Variable env : Env.
Variable fuel : nat.

Definition signup (name email password : string) : M JsVal :=
  response ← api_post env fuel "/auth/signup"
    (JsObject [("name", JsString name); ("email", JsString email);
               ("password", JsString password)]);
  access_token ← prop (data response) "access_token";
  refresh_token ← prop (data response) "refresh_token";
  TokenService.setTokens env access_token refresh_token;;
  mret (data response).

Definition login (email password : string) : M JsVal :=
  response ← api_post env fuel "/auth/login"
    (JsObject [("email", JsString email); ("password", JsString password)]);
  access_token ← prop (data response) "access_token";
  refresh_token ← prop (data response) "refresh_token";
  TokenService.setTokens env access_token refresh_token;;
  mret (data response).

Definition getProfile : M JsVal :=
  response ← api_get env fuel "/auth/me";
  mret (data response).

Definition logout : M unit :=
  try_finally (api_post env fuel "/auth/logout" JsUndefined;; mret tt)
              (TokenService.clearTokens env).
End AuthAPI.
End AuthAPI.

(** ** AuthContext.tsx *)

Module AuthContext.
Section AuthContext.
Variable env : Env.
Variable fuel : nat.

Definition setUser (u : JsVal) : M unit := fun w =>
  (record_event (SetUser u) (with_user u w), Return tt).

Definition setIsLoading (b : bool) : M unit := fun w =>
  (record_event (SetIsLoading b) (with_isLoading b w), Return tt).

(** [isAuthenticated: !!user] *)
Definition isAuthenticated (w : World) : bool := truthy (user w).

Definition checkAuth : M unit :=
  try_finally
    (try_catch
       (token ← TokenService.getAccessToken env;
        if truthy token then
          response ← AuthAPI.getProfile env fuel;
          u ← prop response "user";
          setUser u
        else mret tt)
       (fun _ => TokenService.clearTokens env;; setUser JsNull))
    (setIsLoading false).

Definition login (email password : string) : M unit :=
  response ← AuthAPI.login env fuel email password;
  u ← prop response "user";
  setUser u.

Definition signup (name email password : string) : M unit :=
  response ← AuthAPI.signup env fuel name email password;
  u ← prop response "user";
  setUser u.

Definition logout : M unit :=
  AuthAPI.logout env fuel;;
  setUser JsNull.

Definition refreshUser : M unit :=
  try_catch
    (response ← AuthAPI.getProfile env fuel;
     u ← prop response "user";
     setUser u)
    (fun _ => setUser JsNull).
End AuthContext.
End AuthContext.

(** ** api.ts: the video facade *)

Module VideoAPI.
Section VideoAPI.
Variable env : Env.
Variable fuel : nat.

Definition getDashboard : M JsVal :=
  response ← api_get env fuel "/dashboard";
  mret (data response).

(** The two arguments are interpolated in a template literal. *)
Definition getStreamUrl (videoId playbackToken : JsVal) : M JsVal :=
  response ← api_get env fuel
    ("/video/" +:+ to_string videoId +:+ "/stream?token=" +:+ to_string playbackToken);
  mret (data response).
End VideoAPI.
End VideoAPI.

(** ** app/_layout.tsx *)

Module RootLayout.

(** [segments[0] === '(auth)'] *)
Definition inAuthGroup (segments : list string) : bool :=
  match segments with
  | first :: _ => String.eqb first "(auth)"
  | [] => false
  end.

(** The effect of [RootLayoutNav]: [Some path] is [router.replace(path)]. *)
Definition redirect (isAuthenticated isLoading : bool) (segments : list string)
  : option string :=
  if isLoading then None
  else if negb isAuthenticated && negb (inAuthGroup segments)
  then Some "/(auth)/login"
  else if isAuthenticated && inAuthGroup segments
  then Some "/(app)/dashboard"
  else None.

(** The effect with what [useAuth] gives it. *)
Definition RootLayoutNav (w : World) (segments : list string) : option string :=
  redirect (AuthContext.isAuthenticated w) (isLoading w) segments.

(** expo-router's [useSegments] once the router is at [path]: the parts
    between the slashes (character 47). *)
Fixpoint segments_from (current path : string) : list string :=
  match path with
  | EmptyString => if String.eqb current EmptyString then [] else [current]
  | String c rest =>
      if Ascii.eqb c (Ascii.ascii_of_nat 47) then
        if String.eqb current EmptyString then segments_from EmptyString rest
        else current :: segments_from EmptyString rest
      else segments_from (current +:+ String c EmptyString) rest
  end.

Definition useSegments (path : string) : list string :=
  segments_from EmptyString path.

End RootLayout.

(** ** Screens *)

(** A screen handler runs over the world, the [useState] cells of its
    screen and the dialogs [Alert.alert] has shown. *)
Module UI.

Record State (S : Type) := {
  world : World;
  screen : S;
  alerts : list (string * JsVal);
}.
Arguments world {S} _.
Arguments screen {S} _.
Arguments alerts {S} _.

Definition Task (S A : Type) : Type := State S -> State S * Outcome A.

#[global] Instance Task_ret S : MRet (Task S) := fun A a s => (s, Return a).

#[global] Instance Task_bind S : MBind (Task S) := fun A B f m s =>
  match m s with
  | (s1, Return a) => f a s1
  | (s1, Throw e) => (s1, Throw e)
  | (s1, OutOfFuel) => (s1, OutOfFuel)
  end.

(** A task of the client run from a screen. *)
Definition lift {S A} (m : M A) : Task S A := fun s =>
  let (w, r) := m (world s) in
  ({| world := w; screen := screen s; alerts := alerts s |}, r).

(** [Alert.alert(title, message)] *)
Definition alert {S} (title : string) (message : JsVal) : Task S unit := fun s =>
  ({| world := world s; screen := screen s;
      alerts := alerts s ++ [(title, message)] |}, Return tt).

(** A [useState] setter. *)
Definition update {S} (f : S -> S) : Task S unit := fun s =>
  ({| world := world s; screen := f (screen s); alerts := alerts s |}, Return tt).

Definition try_catch {S A} (body : Task S A) (handler : JsError -> Task S A)
  : Task S A :=
  fun s =>
    match body s with
    | (s1, Throw e) => handler e s1
    | r => r
    end.

Definition try_finally {S A} (body : Task S A) (fin : Task S unit) : Task S A :=
  fun s =>
    match body s with
    | (s1, OutOfFuel) => (s1, OutOfFuel)
    | (s1, r) =>
        match fin s1 with
        | (s2, Return _) => (s2, r)
        | (s2, Throw e) => (s2, Throw e)
        | (s2, OutOfFuel) => (s2, OutOfFuel)
        end
    end.

Definition prop {S} (v : JsVal) (k : string) : Task S JsVal :=
  match get_prop v k with
  | Some x => mret x
  | None => fun s => (s, Throw TypeError)
  end.

(** [error.response?.data?.message] *)
Definition response_message (error : JsError) : JsVal :=
  match error with
  | AxiosError _ (Some response) =>
      match data response with
      | JsUndefined | JsNull => JsUndefined
      | d => default JsUndefined (get_prop d "message")
      end
  | _ => JsUndefined
  end.

(** The message the screens show for a caught error,
    [error.response?.data?.message || error.message].  Everything the
    client throws is an [Error], so the other arm of
    [error instanceof Error ? ... : fallback] is never taken; [message] is
    the [message] property the error was created with. *)
Definition errorMessage (message : JsError -> string) (error : JsError) : JsVal :=
  js_or (response_message error) (JsString (message error)).

End UI.

(** app/(auth)/login.tsx *)
Module LoginScreen.

Record Cells := { isLoading : bool }.

Section LoginScreen.
Variable env : Env.
Variable fuel : nat.
Variable trim : string -> string.
Variable message : JsError -> string.

Definition setIsLoading (b : bool) : UI.Task Cells unit :=
  UI.update (fun _ => {| isLoading := b |}).

Definition handleLogin (email password : string) : UI.Task Cells unit :=
  if negb (truthy (JsString (trim email))) then
    UI.alert "Error" (JsString "Please enter your email")
  else if negb (truthy (JsString password)) then
    UI.alert "Error" (JsString "Please enter your password")
  else
    setIsLoading true;;
    UI.try_finally
      (UI.try_catch
         (UI.lift (AuthContext.login env fuel (trim email) password))
         (fun error => UI.alert "Login Failed" (UI.errorMessage message error)))
      (setIsLoading false).
End LoginScreen.
End LoginScreen.

(** app/(auth)/signup.tsx *)
Module SignupScreen.

Record Cells := { isLoading : bool }.

Section SignupScreen.
Variable env : Env.
Variable fuel : nat.
Variable trim : string -> string.
Variable message : JsError -> string.

Definition setIsLoading (b : bool) : UI.Task Cells unit :=
  UI.update (fun _ => {| isLoading := b |}).

Definition handleSignup (name email password confirmPassword : string)
  : UI.Task Cells unit :=
  if negb (truthy (JsString (trim name))) then
    UI.alert "Error" (JsString "Please enter your name")
  else if negb (truthy (JsString (trim email))) then
    UI.alert "Error" (JsString "Please enter your email")
  else if negb (truthy (JsString password)) then
    UI.alert "Error" (JsString "Please enter a password")
  else if negb (String.eqb password confirmPassword) then
    UI.alert "Error" (JsString "Passwords do not match")
  else
    setIsLoading true;;
    UI.try_finally
      (UI.try_catch
         (UI.lift (AuthContext.signup env fuel (trim name) (trim email) password))
         (fun error => UI.alert "Signup Failed" (UI.errorMessage message error)))
      (setIsLoading false).
End SignupScreen.
End SignupScreen.

(** app/(app)/settings.tsx *)
Module SettingsScreen.
Section SettingsScreen.
Variable env : Env.
Variable fuel : nat.

(** The [onPress] of the Sign Out button of the confirmation dialog. *)
Definition onPress : UI.Task unit unit :=
  UI.try_catch
    (UI.lift (AuthContext.logout env fuel))
    (fun _ => UI.alert "Error" (JsString "Failed to sign out. Please try again.")).
End SettingsScreen.
End SettingsScreen.

(** app/(app)/video/[id].tsx *)
Module VideoScreen.

Record Cells := {
  streamData : JsVal;
  isLoading : bool;
  error : JsVal;
}.

(** [useState(null)], [useState(true)], [useState(null)] *)
Definition initial : Cells :=
  {| streamData := JsNull; isLoading := true; error := JsNull |}.

Inductive View :=
| Loading
| UnableToPlay (message : JsVal)
| NowPlaying.

(** Which of the three returns of the component is taken. *)
Definition render (c : Cells) : View :=
  if isLoading c then Loading
  else if truthy (error c) || negb (truthy (streamData c))
  then UnableToPlay (js_or (error c) (JsString "Unknown error"))
  else NowPlaying.

(** [Math.floor((Date.now() - watchStartTime.current) / 1000)], both times
    in whole milliseconds. *)
Definition watchDuration (start now : Z) : Z := (now - start) / 1000.

(** Whether the cleanup of the effect calls [VideoAPI.trackWatch]. *)
Definition tracks_on_unmount (id : JsVal) (start now : Z) : bool :=
  truthy id && (5 <? watchDuration start now).

Section VideoScreen.
Variable env : Env.
Variable fuel : nat.
Variable message : JsError -> string.

Definition setStreamData (v : JsVal) : UI.Task Cells unit :=
  UI.update (fun c => {| streamData := v; isLoading := isLoading c; error := error c |}).

Definition setIsLoading (b : bool) : UI.Task Cells unit :=
  UI.update (fun c => {| streamData := streamData c; isLoading := b; error := error c |}).

Definition setError (v : JsVal) : UI.Task Cells unit :=
  UI.update (fun c => {| streamData := streamData c; isLoading := isLoading c; error := v |}).

Definition fetchStreamUrl (id playbackToken : JsVal) : UI.Task Cells unit :=
  if negb (truthy id) || negb (truthy playbackToken) then
    setError (JsString "Missing video information");;
    setIsLoading false
  else
    UI.try_finally
      (UI.try_catch
         (response ← UI.lift (VideoAPI.getStreamUrl env fuel id playbackToken);
          setStreamData response)
         (fun err => setError (UI.errorMessage message err)))
      (setIsLoading false).
End VideoScreen.
End VideoScreen.

(** app/(app)/dashboard.tsx *)
Module DashboardScreen.

Record Cells := {
  videos : JsVal;
  isLoading : bool;
  isRefreshing : bool;
}.

Section DashboardScreen.
Variable env : Env.
Variable fuel : nat.
Variable message : JsError -> string.

Definition setVideos (v : JsVal) : UI.Task Cells unit :=
  UI.update (fun c => {| videos := v; isLoading := isLoading c;
                         isRefreshing := isRefreshing c |}).

Definition setIsLoading (b : bool) : UI.Task Cells unit :=
  UI.update (fun c => {| videos := videos c; isLoading := b;
                         isRefreshing := isRefreshing c |}).

Definition setIsRefreshing (b : bool) : UI.Task Cells unit :=
  UI.update (fun c => {| videos := videos c; isLoading := isLoading c;
                         isRefreshing := b |}).

Definition fetchVideos (showRefreshIndicator : bool) : UI.Task Cells unit :=
  (if showRefreshIndicator then setIsRefreshing true else mret tt);;
  UI.try_finally
    (UI.try_catch
       (response ← UI.lift (VideoAPI.getDashboard env fuel);
        videos ← UI.prop response "videos";
        setVideos videos)
       (fun error => UI.alert "Error" (UI.errorMessage message error)))
    (setIsLoading false;; setIsRefreshing false).
End DashboardScreen.
End DashboardScreen.

(** ** Vocabulary of the specification *)

(** What a fail-soft read of [key] gives in [w]: [null] when the store
    throws or holds nothing under [key]. *)
Definition read_value (env : Env) (w : World) (key : string) : JsVal :=
  if storage_fault env (log w) (GetItem key) then JsNull
  else from_option JsString JsNull (store w !! key).

(** The store never throws on a deletion. *)
Definition deletes_succeed (env : Env) : Prop :=
  ∀ l key, storage_fault env l (DeleteItem key) = false.

(** The config [axios.post] builds for the refresh call. *)
Definition refresh_request (refreshToken : JsVal) : AxiosRequestConfig :=
  {| method := POST; url := API_BASE_URL +:+ "/auth/refresh";
     body := JsObject [("refresh_token", refreshToken)];
     headers := ∅; _retry := false |}.

(** The replies on which a refresh fails: none at all, a status outside
    2xx, or a payload whose [access_token] is not a string. *)
Definition refresh_fails (reply : ServerReply) : Prop :=
  match reply with
  | NoReply => True
  | Reply s d =>
      validateStatus s = false ∨ ∀ a, get_prop d "access_token" ≠ Some (JsString a)
  end.

(** The requests a trace shows on the global instance, on [api], and the
    React state updates it shows. *)
Definition global_calls (l : list Event) : list AxiosRequestConfig :=
  omap (λ e, match e with Wire GlobalAxios c => Some c | _ => None end) l.

Definition api_calls (l : list Event) : list AxiosRequestConfig :=
  omap (λ e, match e with Wire ApiInstance c => Some c | _ => None end) l.

Definition react_events (l : list Event) : list Event :=
  omap (λ e, match e with SetUser _ | SetIsLoading _ => Some e | _ => None end) l.

(** A computation that only talks to the secure store. *)
Definition quiet {A} (m : M A) : Prop :=
  ∀ w w' r, m w = (w', r) →
    r ≠ OutOfFuel ∧ user w' = user w ∧ isLoading w' = isLoading w ∧
    ∃ ops, log w' = log w ++ map Store ops.

(** The outbound hook's result in [w]. *)
Definition outbound (env : Env) (w : World) (config : AxiosRequestConfig)
  : AxiosRequestConfig :=
  let token := read_value env w ACCESS_TOKEN_KEY in
  if truthy token
  then set_header "Authorization" ("Bearer " +:+ to_string token) (mergeConfig config)
  else mergeConfig config.

(** What a refresh attempt may leave in the trace when [refreshToken] is
    what the first read gave: storage operations and, when that value is
    truthy, one call on the global instance, the refresh call. *)
Definition refresh_trace (refreshToken : JsVal) (evs : list Event) : Prop :=
  api_calls evs = [] ∧ react_events evs = [] ∧
  global_calls evs = if truthy refreshToken then [refresh_request refreshToken] else [].

(** The guard of the inbound hook. *)
Definition eligible (config : AxiosRequestConfig) (response : option AxiosResponse) : bool :=
  from_option (λ r, status r =? 401) false response && negb (_retry config).

(** What one call of [api] may leave in the trace, and how its outcome
    relates to it: no React state is touched, at most one refresh call
    leaves on the global instance, and the instance itself sends the
    request once, or twice when the second is the marked resubmission,
    whose settled reply is then the outcome. *)
Definition api_trace (config : AxiosRequestConfig) (evs : list Event)
    (r : Outcome AxiosResponse) : Prop :=
  react_events evs = [] ∧
  (global_calls evs = [] ∨
   ∃ rt, rt ≠ EmptyString ∧ global_calls evs = [refresh_request (JsString rt)]) ∧
  ∃ c1, _retry c1 = _retry config ∧
    (api_calls evs = [c1] ∨
     ∃ c2 reply, api_calls evs = [c1; c2] ∧ _retry c1 = false ∧ _retry c2 = true ∧
                 length (global_calls evs) = 1%nat ∧ r = settle c2 reply).

(** The store never throws on a write. *)
Definition writes_succeed (env : Env) : Prop :=
  ∀ l key value, storage_fault env l (SetItem key value) = false.

(** The values [setIsLoading] was called with. *)
Definition loading_updates (l : list Event) : list bool :=
  omap (λ e, match e with SetIsLoading b => Some b | _ => None end) l.

(** A computation below the session manager: it terminates and leaves the
    React state alone. *)
Definition transport {A} (m : M A) : Prop :=
  ∀ w w' r, m w = (w', r) →
    r ≠ OutOfFuel ∧ user w' = user w ∧ isLoading w' = isLoading w ∧
    ∃ evs, log w' = log w ++ evs ∧ react_events evs = [].

(** A computation that terminates and never calls [setIsLoading]. *)
Definition keeps_loading {A} (m : M A) : Prop :=
  ∀ w w' r, m w = (w', r) →
    r ≠ OutOfFuel ∧ ∃ evs, log w' = log w ++ evs ∧ loading_updates evs = [].

(** The reply is not a 401: a success, another error status, or no reply. *)
Definition not_401 (reply : ServerReply) : Prop :=
  ∀ d, reply ≠ Reply 401 d.

(** A computation that leaves every key of the store other than the two
    token keys as it found it. *)
Definition keeps_other_keys {A} (m : M A) : Prop :=
  ∀ w w' r, m w = (w', r) →
    ∀ key, key ≠ ACCESS_TOKEN_KEY → key ≠ REFRESH_TOKEN_KEY →
           store w' !! key = store w !! key.

(** ** Scenarios *)

(** A signed-in session: both tokens stored, a user present. *)
Definition signed_in : World :=
  {| store := <[ACCESS_TOKEN_KEY := "A1"]> (<[REFRESH_TOKEN_KEY := "R1"]> ∅);
     user := JsObject [("id", JsString "1"); ("name", JsString "Ann");
                       ("email", JsString "u@x.com"); ("created_at", JsString "2024")];
     isLoading := false;
     log := [] |}.

(** Tokens left behind by an earlier run, at process start. *)
Definition cold_start : World :=
  {| store := store signed_in; user := JsNull; isLoading := true; log := [] |}.

Definition dashboard_request : AxiosRequestConfig :=
  {| method := GET; url := "/dashboard"; body := JsUndefined;
     headers := ∅; _retry := false |}.

Definition unauthorized : AxiosResponse := {| status := 401; data := JsNull |}.

Definition fresh_token : JsVal := JsObject [("access_token", JsString "A2")].

(** The backend rejects every request of the instance with 401 and grants
    every refresh; the store never fails. *)
Definition always_401 : Env :=
  {| storage_fault := λ _ _, false;
     server := λ _ inst _,
       match inst with
       | ApiInstance => Reply 401 JsNull
       | GlobalAxios => Reply 200 fresh_token
       end |}.

(** The backend rejects the refresh call as well. *)
Definition refresh_rejected : Env :=
  {| storage_fault := λ _ _, false;
     server := λ _ inst _,
       match inst with
       | ApiInstance => Reply 401 JsNull
       | GlobalAxios => Reply 400 JsNull
       end |}.

(** No network: every request times out. *)
Definition offline : Env :=
  {| storage_fault := λ _ _, false; server := λ _ _ _, NoReply |}.


(** The backend knows the user and answers every request with the login
    payload. *)
Definition login_payload : JsVal :=
  JsObject [("message", JsString "ok"); ("user", user signed_in);
            ("access_token", JsString "A1"); ("refresh_token", JsString "R1")].

Definition welcoming : Env :=
  {| storage_fault := λ _ _, false; server := λ _ _ _, Reply 200 login_payload |}.

(** The store accepts the first write of the task and throws on the
    second. *)
Definition second_write_fails : Env :=
  {| storage_fault := λ l op,
       match op with
       | SetItem _ _ => Nat.eqb (length l) 1
       | _ => false
       end;
     server := server welcoming |}.

(** A store that also holds a key of another part of the app. *)
Definition with_theme : World :=
  with_store (<["theme" := "dark"]> (store signed_in)) signed_in.

(** Nobody signed in, nothing stored. *)
Definition signed_out : World :=
  {| store := ∅; user := JsNull; isLoading := false; log := [] |}.

(** The backend refuses the credentials and says why. *)
Definition invalid_credentials : Env :=
  {| storage_fault := λ _ _, false;
     server := λ _ _ _,
       Reply 401 (JsObject [("error", JsString "unauthorized");
                            ("message", JsString "Invalid email or password")]) |}.

(** [String.prototype.trim] on text whose only white space is the space
    character. *)
Fixpoint trim_start (s : string) : string :=
  match s with
  | String c rest => if Ascii.eqb c (Ascii.ascii_of_nat 32) then trim_start rest else s
  | EmptyString => EmptyString
  end.

Fixpoint trim_end (s : string) : string :=
  match s with
  | String c rest =>
      let r := trim_end rest in
      if Ascii.eqb c (Ascii.ascii_of_nat 32) && String.eqb r EmptyString
      then EmptyString
      else String c r
  | EmptyString => EmptyString
  end.

Definition trim_spaces (s : string) : string := trim_end (trim_start s).

(** A [message] for each kind of error. *)
Definition axios_message (e : JsError) : string :=
  match e with
  | AxiosError _ (Some _) => "Request failed"
  | AxiosError _ None => "Network Error"
  | SecureStoreError => "Could not access the keychain"
  | TypeError => "Cannot read property of undefined"
  end.

(** As [refresh_rejected], but the store throws on every deletion. *)
Definition deletion_fails : Env :=
  {| storage_fault := λ _ op,
       match op with
       | DeleteItem _ => true
       | _ => false
       end;
     server := server refresh_rejected |}.

(** No network, and the store throws on every deletion. *)
Definition offline_deletion_fails : Env :=
  {| storage_fault := storage_fault deletion_fails; server := server offline |}.

(** * Properties *)

(** ** The token store *)

Ltac unfold_M :=
  unfold mbind, mret, M_bind, M_ret, throw, try_catch, try_finally in *.

Lemma getItemAsync_soft env key w :
  try_catch (SecureStore.getItemAsync env key) (fun _ => mret JsNull) w
  = (record_event (Store (GetItem key)) w, Return (read_value env w key)).
Proof.
  unfold try_catch, SecureStore.getItemAsync, read_value.
  destruct (storage_fault env (log w) (GetItem key)); reflexivity.
Qed.

Lemma getAccessToken_run env w :
  TokenService.getAccessToken env w
  = (record_event (Store (GetItem ACCESS_TOKEN_KEY)) w,
     Return (read_value env w ACCESS_TOKEN_KEY)).
Proof. apply getItemAsync_soft. Qed.

Lemma getRefreshToken_run env w :
  TokenService.getRefreshToken env w
  = (record_event (Store (GetItem REFRESH_TOKEN_KEY)) w,
     Return (read_value env w REFRESH_TOKEN_KEY)).
Proof. apply getItemAsync_soft. Qed.

Lemma setTokens_Return env a r w w1 :
  TokenService.setTokens env a r w = (w1, Return tt) →
  ∃ sa sr, a = JsString sa ∧ r = JsString sr ∧
    store w1 = <[REFRESH_TOKEN_KEY := sr]> (<[ACCESS_TOKEN_KEY := sa]> (store w)) ∧
    user w1 = user w ∧ isLoading w1 = isLoading w ∧
    log w1 = log w ++ [Store (SetItem ACCESS_TOKEN_KEY sa); Store (SetItem REFRESH_TOKEN_KEY sr)].
Proof.
  unfold TokenService.setTokens, SecureStore.setItemAsync. unfold_M.
  destruct a as [| |sa|]; try discriminate.
  destruct (storage_fault env (log w) _); try discriminate.
  destruct r as [| |sr|]; try discriminate.
  cbn. destruct (storage_fault env _ _); try discriminate.
  intros [= <-]. exists sa, sr. cbn. rewrite <- app_assoc. done.
Qed.

Lemma clearTokens_Return env w w1 :
  TokenService.clearTokens env w = (w1, Return tt) →
  store w1 = delete REFRESH_TOKEN_KEY (delete ACCESS_TOKEN_KEY (store w)) ∧
  user w1 = user w ∧ isLoading w1 = isLoading w ∧
  log w1 = log w ++ [Store (DeleteItem ACCESS_TOKEN_KEY); Store (DeleteItem REFRESH_TOKEN_KEY)].
Proof.
  unfold TokenService.clearTokens, SecureStore.deleteItemAsync. unfold_M.
  destruct (storage_fault env (log w) _); try discriminate.
  cbn. destruct (storage_fault env _ _); try discriminate.
  intros [= <-]. cbn. rewrite <- app_assoc. done.
Qed.

Lemma clearTokens_ok env w :
  deletes_succeed env →
  TokenService.clearTokens env w
  = (with_store (delete REFRESH_TOKEN_KEY (delete ACCESS_TOKEN_KEY (store w)))
       (record_event (Store (DeleteItem REFRESH_TOKEN_KEY))
          (record_event (Store (DeleteItem ACCESS_TOKEN_KEY)) w)), Return tt).
Proof.
  intros H. unfold TokenService.clearTokens, SecureStore.deleteItemAsync. unfold_M.
  rewrite H. cbn. rewrite H. reflexivity.
Qed.

(** ** The outbound hook *)

Lemma truthy_JsString t : t ≠ EmptyString → truthy (JsString t) = true.
Proof.
  intros H. cbn. destruct (String.eqb_spec t EmptyString); [contradiction | reflexivity].
Qed.

Lemma request_interceptor_run env config w :
  request_interceptor env config w
  = (record_event (Store (GetItem ACCESS_TOKEN_KEY)) w,
     Return (let token := read_value env w ACCESS_TOKEN_KEY in
             if truthy token
             then set_header "Authorization" ("Bearer " +:+ to_string token) config
             else config)).
Proof.
  unfold request_interceptor. unfold mbind, M_bind at 1.
  rewrite getAccessToken_run. cbn zeta.
  destruct (truthy _); reflexivity.
Qed.

Lemma only_header name value (h : gmap string string) :
  filter (λ kv, kv.1 = name) (<[name := value]> h) = {[ name := value ]}.
Proof.
  apply map_eq. intros k. destruct (decide (k = name)) as [->|Hne].
  - rewrite lookup_singleton_eq. apply map_lookup_filter_Some. split; [|done].
    apply lookup_insert_eq.
  - rewrite lookup_singleton_ne by done. apply map_lookup_filter_None. right.
    intros x _ ?. cbn in *. congruence.
Qed.

(** C4.  The request interceptor always returns a config (it never throws)
    after one read of the access token, the store untouched.  When a
    non-empty token [t] is stored and the read does not fail, the config is
    the one received with the header [Authorization] set to ["Bearer " ++ t],
    and that is its only [Authorization] entry.  When no token is stored or
    the read fails, the config is returned unchanged. *)
Theorem request_interceptor_bearer env config w :
  ∃ config',
    request_interceptor env config w
    = (record_event (Store (GetItem ACCESS_TOKEN_KEY)) w, Return config') ∧
    (∀ t, storage_fault env (log w) (GetItem ACCESS_TOKEN_KEY) = false →
          store w !! ACCESS_TOKEN_KEY = Some t → t ≠ EmptyString →
          config' = set_header "Authorization" ("Bearer " +:+ t) config ∧
          filter (λ kv, kv.1 = "Authorization") (headers config')
          = {[ "Authorization" := "Bearer " +:+ t ]}) ∧
    (storage_fault env (log w) (GetItem ACCESS_TOKEN_KEY) = true ∨
     store w !! ACCESS_TOKEN_KEY = None ∨
     store w !! ACCESS_TOKEN_KEY = Some EmptyString → config' = config).
Proof.
  eexists. split; [apply request_interceptor_run|]. cbn zeta. unfold read_value. split.
  - intros t -> -> Ht. cbn [from_option]. rewrite truthy_JsString by done.
    split; [reflexivity|]. apply only_header.
  - intros [-> | [-> | ->]]; [reflexivity| |];
      by destruct (storage_fault env (log w) _).
Qed.

(** ** The inbound hook *)

Lemma axios_post_run env u d w :
  axios_post env u d w
  = (let config := {| method := POST; url := u; body := d; headers := ∅; _retry := false |} in
     (record_event (Wire GlobalAxios config) w,
      settle config (server env (log w) GlobalAxios config))).
Proof. reflexivity. Qed.

Lemma response_rejected_marked env api config response w :
  _retry config = true →
  response_rejected env api (AxiosError (Some config) response) w
  = (w, Throw (AxiosError (Some config) response)).
Proof.
  intros H. unfold response_rejected. cbn [from_option]. rewrite H.
  rewrite andb_false_r. reflexivity.
Qed.

Lemma response_rejected_not_401 env api config response w :
  from_option (λ r, status r =? 401) false response = false →
  response_rejected env api (AxiosError config response) w
  = (w, Throw (AxiosError config response)).
Proof. intros H. unfold response_rejected. rewrite H. reflexivity. Qed.

(** The shape of the hook once the guard has passed. *)
Lemma response_rejected_401 env api config response w :
  status response = 401 → _retry config = false →
  response_rejected env api (AxiosError (Some config) (Some response)) w
  = match try_catch (refresh_tokens env (set_retry config))
            (λ _, TokenService.clearTokens env;; mret None) w with
    | (w1, Return (Some request)) => api request w1
    | (w1, Return None) =>
        (w1, Throw (AxiosError (Some (set_retry config)) (Some response)))
    | (w1, Throw e) => (w1, Throw e)
    | (w1, OutOfFuel) => (w1, OutOfFuel)
    end.
Proof.
  intros Hs Hr. unfold response_rejected. cbn [from_option]. rewrite Hs, Hr.
  cbn [Z.eqb Pos.eqb andb negb]. unfold mbind, M_bind at 1.
  destruct (try_catch _ _ w) as [w1 [[request|]| |]]; reflexivity.
Qed.

Lemma refresh_tokens_absent env originalRequest w :
  truthy (read_value env w REFRESH_TOKEN_KEY) = false →
  refresh_tokens env originalRequest w
  = (record_event (Store (GetItem REFRESH_TOKEN_KEY)) w, Return None).
Proof.
  intros H. unfold refresh_tokens. unfold mbind, M_bind at 1.
  rewrite getRefreshToken_run, H. reflexivity.
Qed.

(** Everything the [try] does once a refresh token was read. *)
Lemma refresh_tokens_present env originalRequest w :
  truthy (read_value env w REFRESH_TOKEN_KEY) = true →
  refresh_tokens env originalRequest w
  = let refreshToken := read_value env w REFRESH_TOKEN_KEY in
    let w1 := record_event (Store (GetItem REFRESH_TOKEN_KEY)) w in
    let w2 := record_event (Wire GlobalAxios (refresh_request refreshToken)) w1 in
    match settle (refresh_request refreshToken)
            (server env (log w1) GlobalAxios (refresh_request refreshToken)) with
    | Return response =>
        match get_prop (data response) "access_token" with
        | Some access_token =>
            let w3 := record_event (Store (GetItem REFRESH_TOKEN_KEY)) w2 in
            match TokenService.setTokens env access_token
                    (js_or (read_value env w2 REFRESH_TOKEN_KEY) (JsString EmptyString)) w3 with
            | (w4, Return _) =>
                (w4, Return (Some (set_header "Authorization"
                                     ("Bearer " +:+ to_string access_token)
                                     originalRequest)))
            | (w4, Throw e) => (w4, Throw e)
            | (w4, OutOfFuel) => (w4, OutOfFuel)
            end
        | None => (w2, Throw TypeError)
        end
    | Throw e => (w2, Throw e)
    | OutOfFuel => (w2, OutOfFuel)
    end.
Proof.
  intros H. unfold refresh_tokens. unfold mbind, M_bind at 1.
  rewrite getRefreshToken_run, H. cbn zeta.
  unfold mbind, M_bind at 1. rewrite axios_post_run. cbn zeta.
  fold (refresh_request (read_value env w REFRESH_TOKEN_KEY)).
  destruct (settle _ _) as [response| |]; [|reflexivity..].
  unfold prop. destruct (get_prop _ _) as [access_token|]; [|reflexivity].
  unfold mbind, M_bind, mret, M_ret. rewrite getRefreshToken_run.
  destruct (TokenService.setTokens _ _ _ _) as [w4 [[]| |]]; reflexivity.
Qed.

Lemma setTokens_not_string env a r w :
  (∀ s, a ≠ JsString s) →
  TokenService.setTokens env a r w = (w, Throw SecureStoreError).
Proof.
  intros H. unfold TokenService.setTokens, SecureStore.setItemAsync.
  unfold mbind, M_bind. destruct a; try reflexivity. by destruct (H s).
Qed.

Lemma lookup_cleared (s : gmap string string) :
  delete REFRESH_TOKEN_KEY (delete ACCESS_TOKEN_KEY s) !! ACCESS_TOKEN_KEY = None ∧
  delete REFRESH_TOKEN_KEY (delete ACCESS_TOKEN_KEY s) !! REFRESH_TOKEN_KEY = None.
Proof.
  split.
  - rewrite lookup_delete_ne by discriminate. apply lookup_delete_eq.
  - apply lookup_delete_eq.
Qed.

(** C9.  A 401 on a request that is not yet marked, when the refresh token
    reads back absent (not stored, empty, or the read failed): the hook does
    one read of the refresh token and nothing else, so no refresh call is
    issued and the store is unchanged, and it rejects with the original 401
    error, whose config now carries the marker. *)
Theorem no_refresh_token_propagates env api config response w :
  status response = 401 → _retry config = false →
  truthy (read_value env w REFRESH_TOKEN_KEY) = false →
  ∃ w', response_rejected env api (AxiosError (Some config) (Some response)) w
        = (w', Throw (AxiosError (Some (set_retry config)) (Some response))) ∧
        store w' = store w ∧
        log w' = log w ++ [Store (GetItem REFRESH_TOKEN_KEY)].
Proof.
  intros Hs Hr Ht. rewrite response_rejected_401 by done.
  unfold try_catch. rewrite refresh_tokens_absent by done. eauto.
Qed.

Lemma refresh_caught env (body : M (option AxiosRequestConfig)) w w0 e :
  body w = (w0, Throw e) → deletes_succeed env →
  ∃ w', try_catch body (λ _, TokenService.clearTokens env;; mret None) w
        = (w', Return None) ∧
        store w' !! ACCESS_TOKEN_KEY = None ∧
        store w' !! REFRESH_TOKEN_KEY = None ∧
        user w' = user w0 ∧ isLoading w' = isLoading w0 ∧
        log w' = log w0 ++ [Store (DeleteItem ACCESS_TOKEN_KEY);
                            Store (DeleteItem REFRESH_TOKEN_KEY)].
Proof.
  intros Hb Hdel. eexists. unfold try_catch. rewrite Hb.
  unfold mbind, M_bind. rewrite clearTokens_ok by done.
  split; [reflexivity|]. cbn. rewrite <- app_assoc.
  pose proof (lookup_cleared (store w0)) as [? ?]. done.
Qed.

Lemma refresh_tokens_fails env originalRequest w rt :
  read_value env w REFRESH_TOKEN_KEY = JsString rt → rt ≠ EmptyString →
  refresh_fails (server env (log w ++ [Store (GetItem REFRESH_TOKEN_KEY)])
                   GlobalAxios (refresh_request (JsString rt))) →
  ∃ w0 e, refresh_tokens env originalRequest w = (w0, Throw e).
Proof.
  intros Hread Hne Hfail.
  rewrite refresh_tokens_present by (rewrite Hread; by apply truthy_JsString).
  cbn zeta. rewrite Hread.
  change (log (record_event (Store (GetItem REFRESH_TOKEN_KEY)) w))
    with (log w ++ [Store (GetItem REFRESH_TOKEN_KEY)]).
  destruct (server env _ GlobalAxios _) as [s d|]; cbn [settle]; [|by eauto].
  destruct (validateStatus s) eqn:Hv; [|by eauto].
  destruct Hfail as [Hfail | Hfail]; [congruence|]. cbn [data].
  destruct (get_prop d "access_token") as [a|] eqn:Ha; [|by eauto].
  rewrite setTokens_not_string by (intros s' ->; by apply (Hfail s')). eauto.
Qed.

(** ** Traces *)

Lemma global_calls_store ops : global_calls (map Store ops) = [].
Proof. induction ops; [done|]. cbn. done. Qed.
Lemma api_calls_store ops : api_calls (map Store ops) = [].
Proof. induction ops; [done|]. cbn. done. Qed.
Lemma react_events_store ops : react_events (map Store ops) = [].
Proof. induction ops; [done|]. cbn. done. Qed.

Lemma global_calls_app l l' : global_calls (l ++ l') = global_calls l ++ global_calls l'.
Proof. apply omap_app. Qed.
Lemma api_calls_app l l' : api_calls (l ++ l') = api_calls l ++ api_calls l'.
Proof. apply omap_app. Qed.
Lemma react_events_app l l' : react_events (l ++ l') = react_events l ++ react_events l'.
Proof. apply omap_app. Qed.

Section Quiet.
Variable env : Env.

Lemma quiet_getItemAsync key : quiet (SecureStore.getItemAsync env key).
Proof.
  intros w w' r. unfold SecureStore.getItemAsync.
  destruct (storage_fault _ _ _); intros [= <- <-];
    (split; [done|]); (split; [done|]); (split; [done|]); by exists [GetItem key].
Qed.

Lemma quiet_setItemAsync key v : quiet (SecureStore.setItemAsync env key v).
Proof.
  intros w w' r. unfold SecureStore.setItemAsync.
  destruct v as [| |s|].
  1,2,4: intros [= <- <-]; repeat (split; [done|]); exists []; cbn; by rewrite app_nil_r.
  destruct (storage_fault _ _ _); intros [= <- <-];
    repeat (split; [done|]); by exists [SetItem key s].
Qed.

Lemma quiet_deleteItemAsync key : quiet (SecureStore.deleteItemAsync env key).
Proof.
  intros w w' r. unfold SecureStore.deleteItemAsync.
  destruct (storage_fault _ _ _); intros [= <- <-];
    repeat (split; [done|]); by exists [DeleteItem key].
Qed.

Lemma quiet_mret {A} (a : A) : quiet (mret a).
Proof.
  intros w w' r [= <- <-]. repeat (split; [done|]). exists []. cbn. by rewrite app_nil_r.
Qed.

Lemma quiet_bind {A B} (m : M A) (f : A → M B) :
  quiet m → (∀ a, quiet (f a)) → quiet (m ≫= f).
Proof.
  intros Hm Hf w w' r. unfold mbind, M_bind.
  destruct (m w) as [w1 [a| |]] eqn:E; destruct (Hm _ _ _ E) as (? & Hu & Hl & ops & Hlog).
  - intros E2. destruct (Hf a _ _ _ E2) as (? & Hu2 & Hl2 & ops2 & Hlog2).
    split; [done|]. split; [congruence|]. split; [congruence|].
    exists (ops ++ ops2). rewrite Hlog2, Hlog, map_app, app_assoc. done.
  - intros [= <- <-]. repeat (split; [done|]). by exists ops.
  - done.
Qed.

Lemma quiet_try_catch {A} (m : M A) (h : JsError → M A) :
  quiet m → (∀ e, quiet (h e)) → quiet (try_catch m h).
Proof.
  intros Hm Hh w w' r. unfold try_catch.
  destruct (m w) as [w1 [a|e|]] eqn:E; destruct (Hm _ _ _ E) as (? & Hu & Hl & ops & Hlog).
  - intros [= <- <-]. repeat (split; [done|]). by exists ops.
  - intros E2. destruct (Hh e _ _ _ E2) as (? & Hu2 & Hl2 & ops2 & Hlog2).
    split; [done|]. split; [congruence|]. split; [congruence|].
    exists (ops ++ ops2). rewrite Hlog2, Hlog, map_app, app_assoc. done.
  - done.
Qed.

Lemma quiet_setTokens a r : quiet (TokenService.setTokens env a r).
Proof. apply quiet_bind; [apply quiet_setItemAsync|]. intros _. apply quiet_setItemAsync. Qed.

Lemma quiet_clearTokens : quiet (TokenService.clearTokens env).
Proof. apply quiet_bind; [apply quiet_deleteItemAsync|]. intros _. apply quiet_deleteItemAsync. Qed.

End Quiet.

Lemma read_value_truthy env w key :
  truthy (read_value env w key) = true →
  ∃ s, read_value env w key = JsString s ∧ s ≠ EmptyString ∧
       storage_fault env (log w) (GetItem key) = false ∧ store w !! key = Some s.
Proof.
  unfold read_value. destruct (storage_fault _ _ _); [done|].
  destruct (store w !! key) as [s|]; [|done]. cbn.
  intros H. exists s. repeat split; try done. intros ->. done.
Qed.

Lemma refresh_trace_store tok evs ops :
  refresh_trace tok evs → refresh_trace tok (evs ++ map Store ops).
Proof.
  intros (Ha & Hr & Hg). unfold refresh_trace.
  rewrite api_calls_app, react_events_app, global_calls_app.
  rewrite api_calls_store, react_events_store, global_calls_store, !app_nil_r. done.
Qed.

Lemma refresh_trace_read tok :
  truthy tok = false → refresh_trace tok [Store (GetItem REFRESH_TOKEN_KEY)].
Proof. intros H. unfold refresh_trace. rewrite H. done. Qed.

Lemma refresh_trace_call tok :
  truthy tok = true →
  refresh_trace tok [Store (GetItem REFRESH_TOKEN_KEY);
                     Wire GlobalAxios (refresh_request tok)].
Proof. intros H. unfold refresh_trace. rewrite H. done. Qed.

Section Trace.
Variable env : Env.

Lemma refresh_tokens_trace originalRequest w w' r :
  refresh_tokens env originalRequest w = (w', r) →
  r ≠ OutOfFuel ∧ user w' = user w ∧ isLoading w' = isLoading w ∧
  ∃ evs, log w' = log w ++ evs ∧
    refresh_trace (read_value env w REFRESH_TOKEN_KEY) evs ∧
    ∀ request, r = Return (Some request) →
      (∃ value, request = set_header "Authorization" value originalRequest) ∧
      length (global_calls evs) = 1%nat.
Proof.
  destruct (truthy (read_value env w REFRESH_TOKEN_KEY)) eqn:Ht.
  - rewrite refresh_tokens_present by done. cbn zeta.
    set (tok := read_value env w REFRESH_TOKEN_KEY) in *.
    assert (Hcall : ∀ r0, ∃ evs,
              log (record_event (Wire GlobalAxios (refresh_request tok))
                     (record_event (Store (GetItem REFRESH_TOKEN_KEY)) w)) = log w ++ evs ∧
              refresh_trace tok evs ∧
              ∀ request, @Throw (option AxiosRequestConfig) r0 = Return (Some request) →
                (∃ value, request = set_header "Authorization" value originalRequest) ∧
                length (global_calls evs) = 1%nat).
    { intros r0. eexists. split; [cbn; by rewrite <- app_assoc|].
      split; [by apply refresh_trace_call|]. done. }
    destruct (settle _ _) as [response|e|] eqn:Hsettle.
    + destruct (get_prop _ _) as [a|].
      * destruct (TokenService.setTokens _ _ _ _) as [w4 r4] eqn:Hset.
        destruct (quiet_setTokens env _ _ _ _ _ Hset) as (Hr4 & Hu & Hl & ops & Hlog).
        cbn in Hu, Hl, Hlog.
        assert (Hlog' : log w4 = log w ++
                  ([Store (GetItem REFRESH_TOKEN_KEY);
                    Wire GlobalAxios (refresh_request tok)] ++
                   map Store (GetItem REFRESH_TOKEN_KEY :: ops))).
        { rewrite Hlog. cbn. rewrite <- !app_assoc. done. }
        assert (Htr : refresh_trace tok ([Store (GetItem REFRESH_TOKEN_KEY);
                    Wire GlobalAxios (refresh_request tok)] ++
                   map Store (GetItem REFRESH_TOKEN_KEY :: ops)))
          by (apply refresh_trace_store; by apply refresh_trace_call).
        assert (Hlen : length (global_calls ([Store (GetItem REFRESH_TOKEN_KEY);
                    Wire GlobalAxios (refresh_request tok)] ++
                   map Store (GetItem REFRESH_TOKEN_KEY :: ops))) = 1%nat).
        { rewrite global_calls_app, global_calls_store. done. }
        destruct r4 as [[]|e|]; [| |done]; intros [= <- <-];
          (split; [done|]); (split; [done|]); (split; [done|]);
          eexists; (split; [exact Hlog'|]); (split; [exact Htr|]).
        -- intros request [= <-]. eauto.
        -- done.
      * intros [= <- <-]. repeat (split; [done|]). apply (Hcall TypeError).
    + intros [= <- <-]. repeat (split; [done|]). apply (Hcall e).
    + unfold settle in Hsettle. destruct (server _ _ _ _); [destruct (validateStatus _)|]; done.
  - rewrite refresh_tokens_absent by done. intros [= <- <-].
    repeat (split; [done|]). eexists. split; [done|].
    split; [by apply refresh_trace_read|]. done.
Qed.

Lemma refresh_step_trace originalRequest w w' r :
  try_catch (refresh_tokens env originalRequest)
    (λ _, TokenService.clearTokens env;; mret None) w = (w', r) →
  r ≠ OutOfFuel ∧ user w' = user w ∧ isLoading w' = isLoading w ∧
  (∀ e, r = Throw e → e = SecureStoreError) ∧
  ∃ evs, log w' = log w ++ evs ∧
    refresh_trace (read_value env w REFRESH_TOKEN_KEY) evs ∧
    ∀ request, r = Return (Some request) →
      (∃ value, request = set_header "Authorization" value originalRequest) ∧
      length (global_calls evs) = 1%nat.
Proof.
  unfold try_catch.
  destruct (refresh_tokens env originalRequest w) as [w1 r1] eqn:E.
  destruct (refresh_tokens_trace _ _ _ _ E) as (Hr1 & Hu & Hl & evs & Hlog & Htr & Hreq).
  destruct r1 as [o|e|]; [| |done].
  - intros [= <- <-]. repeat (split; [done|]). eauto.
  - intros E2.
    assert (Hq : quiet (TokenService.clearTokens env;; mret (@None AxiosRequestConfig))).
    { apply quiet_bind; [apply quiet_clearTokens|]. intros _. apply quiet_mret. }
    destruct (Hq _ _ _ E2) as (Hr & Hu2 & Hl2 & ops & Hlog2).
    split; [done|]. split; [congruence|]. split; [congruence|].
    split.
    + intros e' ->. unfold mbind, M_bind in E2.
      destruct (TokenService.clearTokens env w1) as [w2 [[]|e2|]] eqn:Ec; [done| |done].
      injection E2 as <- <-.
      unfold TokenService.clearTokens, SecureStore.deleteItemAsync, mbind, M_bind in Ec.
      destruct (storage_fault _ _ _); [by injection Ec as <- <-|].
      cbn in Ec. destruct (storage_fault _ _ _); [by injection Ec as <- <-|done].
    + exists (evs ++ map Store ops). split; [by rewrite Hlog2, Hlog, app_assoc|].
      split; [by apply refresh_trace_store|].
      intros request ->. unfold mbind, M_bind, mret, M_ret in E2.
      destruct (TokenService.clearTokens env w1) as [w2 [[]|e2|]]; done.
Qed.

End Trace.

(** ** One call of the instance *)

Lemma outbound_retry env w config : _retry (outbound env w config) = _retry config.
Proof. unfold outbound. cbn zeta. destruct (truthy _); reflexivity. Qed.

Lemma settle_not_OutOfFuel config reply : settle config reply ≠ OutOfFuel.
Proof. destruct reply as [s d|]; cbn; [destruct (validateStatus s)|]; done. Qed.

Lemma settle_Throw config reply e :
  settle config reply = Throw e → ∃ response, e = AxiosError (Some config) response.
Proof.
  destruct reply as [s d|]; cbn; [destruct (validateStatus s)|]; intros [= <-]; eauto.
Qed.

Lemma response_rejected_ineligible env api config response w :
  eligible config response = false →
  response_rejected env api (AxiosError (Some config) response) w
  = (w, Throw (AxiosError (Some config) response)).
Proof. unfold eligible. intros H. unfold response_rejected. cbn [from_option]. rewrite H. done. Qed.

Lemma eligible_true config response :
  eligible config response = true →
  ∃ r, response = Some r ∧ status r = 401 ∧ _retry config = false.
Proof.
  unfold eligible. destruct response as [r|]; [|done]. cbn.
  intros [H1 H2]%andb_true_iff. exists r. split; [done|]. split; [lia|].
  by destruct (_retry config).
Qed.

Section Api.
Variable env : Env.

Lemma api_step n config w :
  api env (S n) config w
  = let w1 := record_event (Store (GetItem ACCESS_TOKEN_KEY)) w in
    let c1 := outbound env w config in
    let w2 := record_event (Wire ApiInstance c1) w1 in
    match settle c1 (server env (log w1) ApiInstance c1) with
    | Return response => (w2, Return response)
    | Throw e => response_rejected env (api env n) e w2
    | OutOfFuel => (w2, OutOfFuel)
    end.
Proof.
  cbn [api]. unfold mbind, M_bind at 1. rewrite request_interceptor_run. cbn zeta.
  fold (outbound env w config). unfold promise_then, dispatch, response_fulfilled.
  destruct (settle _ _); reflexivity.
Qed.

Lemma api_marked n config w :
  _retry config = true →
  api env (S n) config w
  = let w1 := record_event (Store (GetItem ACCESS_TOKEN_KEY)) w in
    let c1 := outbound env w config in
    (record_event (Wire ApiInstance c1) w1,
     settle c1 (server env (log w1) ApiInstance c1)).
Proof.
  intros Hr. rewrite api_step. cbn zeta.
  destruct (settle _ _) as [response|e|] eqn:E; [done| |done].
  destruct (settle_Throw _ _ _ E) as (response & ->).
  apply response_rejected_marked. by rewrite outbound_retry.
Qed.

Lemma api_fuel n config w :
  api env (S (S n)) config w = api env 2 config w.
Proof.
  rewrite !api_step. cbn zeta.
  destruct (settle _ _) as [response|e|] eqn:E; [done| |done].
  destruct (settle_Throw _ _ _ E) as (response & ->).
  destruct (eligible (outbound env w config) response) eqn:Hel.
  - destruct (eligible_true _ _ Hel) as (r & -> & Hs & Hr).
    rewrite !response_rejected_401 by done.
    destruct (try_catch _ _ _) as [w1 r1] eqn:Hstep.
    destruct (refresh_step_trace env _ _ _ _ Hstep) as (_ & _ & _ & _ & evs & _ & _ & Hreq).
    destruct r1 as [[request|]| |]; try done.
    destruct (Hreq request eq_refl) as ((value & Heq) & _). clear Hreq. subst request.
    rewrite !api_marked by done. done.
  - by rewrite !response_rejected_ineligible.
Qed.

Lemma api_run n config w w' r :
  api env (S (S n)) config w = (w', r) →
  r ≠ OutOfFuel ∧ user w' = user w ∧ isLoading w' = isLoading w ∧
  ∃ evs, log w' = log w ++ evs ∧ api_trace config evs r.
Proof.
  rewrite api_step. cbn zeta.
  set (w1 := record_event (Store (GetItem ACCESS_TOKEN_KEY)) w).
  set (c1 := outbound env w config).
  assert (Hc1 : _retry c1 = _retry config) by apply outbound_retry.
  assert (Hone : ∀ r0, api_trace config [Store (GetItem ACCESS_TOKEN_KEY); Wire ApiInstance c1] r0).
  { intros r0. split; [done|]. split; [by left|]. exists c1. split; [done|]. by left. }
  assert (Hlog2 : log (record_event (Wire ApiInstance c1) w1)
                  = log w ++ [Store (GetItem ACCESS_TOKEN_KEY); Wire ApiInstance c1]).
  { cbn. by rewrite <- app_assoc. }
  destruct (settle _ _) as [response|e|] eqn:E.
  - intros [= <- <-]. repeat (split; [done|]). eauto.
  - destruct (settle_Throw _ _ _ E) as (response & ->).
    destruct (eligible c1 response) eqn:Hel.
    + destruct (eligible_true _ _ Hel) as (r401 & -> & Hs & Hr).
      rewrite response_rejected_401 by done.
      destruct (try_catch _ _ _) as [w3 r3] eqn:Hstep.
      destruct (refresh_step_trace env _ _ _ _ Hstep)
        as (Hr3 & Hu & Hl & _ & evs & Hlog & (Ha & Hre & Hg) & Hreq).
      assert (Hlog3 : log w3 = log w ++
                ([Store (GetItem ACCESS_TOKEN_KEY); Wire ApiInstance c1] ++ evs)).
      { rewrite Hlog, Hlog2, <- app_assoc. done. }
      assert (Hglobal :
        (if truthy (read_value env (record_event (Wire ApiInstance c1) w1) REFRESH_TOKEN_KEY)
         then [refresh_request (read_value env (record_event (Wire ApiInstance c1) w1)
                                  REFRESH_TOKEN_KEY)]
         else []) = [] ∨
        ∃ rt, rt ≠ EmptyString ∧
          (if truthy (read_value env (record_event (Wire ApiInstance c1) w1) REFRESH_TOKEN_KEY)
           then [refresh_request (read_value env (record_event (Wire ApiInstance c1) w1)
                                    REFRESH_TOKEN_KEY)]
           else []) = [refresh_request (JsString rt)]).
      { destruct (truthy _) eqn:Ht; [|by left].
        destruct (read_value_truthy _ _ _ Ht) as (rt & -> & ? & _). right. eauto. }
      assert (Hpre : ∀ r0, api_trace config
                ([Store (GetItem ACCESS_TOKEN_KEY); Wire ApiInstance c1] ++ evs) r0).
      { intros r0. unfold api_trace.
        rewrite react_events_app, global_calls_app, api_calls_app, Ha, Hre, Hg. cbn.
        split; [done|]. split; [apply Hglobal|]. exists c1. split; [done|]. by left. }
      destruct r3 as [[request|]|e|]; [| | |done].
      * destruct (Hreq request eq_refl) as ((value & Heq) & Hlen). clear Hreq. subst request.
        rewrite api_marked by done. cbn zeta. intros [= <- <-].
        split; [apply settle_not_OutOfFuel|]. split; [done|]. split; [done|].
        eexists. split.
        { cbn [log record_event]. rewrite Hlog3, <- !app_assoc. reflexivity. }
        unfold api_trace.
        rewrite !react_events_app, !global_calls_app, !api_calls_app, Ha, Hre. cbn.
        rewrite !app_nil_r.
        split; [done|]. split; [rewrite Hg; apply Hglobal|].
        exists c1. split; [done|]. right. eexists _, _.
        split; [reflexivity|]. split; [done|]. split; [by rewrite outbound_retry|].
        split; [done|]. reflexivity.
      * intros [= <- <-]. repeat (split; [done|]). eauto.
      * intros [= <- <-]. repeat (split; [done|]). eauto.
    + rewrite response_rejected_ineligible by done. intros [= <- <-].
      repeat (split; [done|]). eauto.
  - by destruct (settle_not_OutOfFuel _ _ E).
Qed.

End Api.

Lemma setTokens_ok env sa sr w :
  writes_succeed env →
  TokenService.setTokens env (JsString sa) (JsString sr) w
  = (with_store (<[REFRESH_TOKEN_KEY := sr]> (<[ACCESS_TOKEN_KEY := sa]> (store w)))
       (record_event (Store (SetItem REFRESH_TOKEN_KEY sr))
          (record_event (Store (SetItem ACCESS_TOKEN_KEY sa)) w)), Return tt).
Proof.
  intros H. unfold TokenService.setTokens, SecureStore.setItemAsync, mbind, M_bind.
  rewrite H. cbn. rewrite H. reflexivity.
Qed.

Lemma lookup_stored (s : gmap string string) sa sr :
  <[REFRESH_TOKEN_KEY := sr]> (<[ACCESS_TOKEN_KEY := sa]> s) !! ACCESS_TOKEN_KEY = Some sa ∧
  <[REFRESH_TOKEN_KEY := sr]> (<[ACCESS_TOKEN_KEY := sa]> s) !! REFRESH_TOKEN_KEY = Some sr.
Proof.
  split.
  - rewrite lookup_insert_ne by discriminate. apply lookup_insert_eq.
  - apply lookup_insert_eq.
Qed.

(** C1.  A request that carries the retry marker is rejected by the inbound
    hook as it is, whatever its response (a 401 included): no storage
    access, no refresh call, no resubmission.  Per call of [api], with any
    fuel of at least two, the run ends, at most one refresh call leaves on
    the global instance, and the instance sends the request once, or twice
    when the second is the marked resubmission; in that case what the
    caller observes is the settled reply of the resubmission, an error
    included. *)
Theorem single_retry_per_call env :
  (∀ api config response w,
     response_rejected env api (AxiosError (Some (set_retry config)) response) w
     = (w, Throw (AxiosError (Some (set_retry config)) response))) ∧
  (∀ n config w,
     api env (S (S n)) config w = api env 2 config w ∧
     (api env 2 config w).2 ≠ OutOfFuel ∧
     ∃ evs, log (api env 2 config w).1 = log w ++ evs ∧
       (length (global_calls evs) ≤ 1)%nat ∧
       ∃ c1, api_calls evs = [c1] ∨
             ∃ c2 reply, api_calls evs = [c1; c2] ∧
                         _retry c1 = false ∧ _retry c2 = true ∧
                         (api env 2 config w).2 = settle c2 reply).
Proof.
  split.
  - intros. by apply response_rejected_marked.
  - intros n config w. split; [apply api_fuel|].
    destruct (api env 2 config w) as [w' r] eqn:E.
    destruct (api_run env 0 config w w' r E) as (Hr & _ & _ & evs & Hlog & _ & Hg & c1 & _ & Hc).
    split; [done|]. exists evs. split; [done|]. split.
    + destruct Hg as [-> | (rt & _ & ->)]; cbn; lia.
    + exists c1. destruct Hc as [Hc | (c2 & reply & Hc & H1 & H2 & _ & Hr2)]; [by left|].
      right. eauto 10.
Qed.

(** C8.  The refresh request is a POST to [API_BASE_URL ++ "/auth/refresh"]
    with body [{ refresh_token }] and no [Authorization] header.  The
    refresh attempt sends nothing on [api], and on the global instance
    exactly that request, built from the refresh token it read, when the
    token is truthy.  The call is one wire event whose outcome is the
    settled reply: no hook runs on it, so a 401 is thrown as it is.  In a
    whole call of [api] at most one request leaves on the global instance,
    and it is a refresh request. *)
Theorem refresh_bypasses_interceptors env :
  (∀ refreshToken,
     method (refresh_request refreshToken) = POST ∧
     url (refresh_request refreshToken) = "http://10.0.2.2:5000/auth/refresh" ∧
     body (refresh_request refreshToken) = JsObject [("refresh_token", refreshToken)] ∧
     headers (refresh_request refreshToken) !! "Authorization" = None) ∧
  (∀ originalRequest w,
     ∃ evs, log (refresh_tokens env originalRequest w).1 = log w ++ evs ∧
       api_calls evs = [] ∧
       global_calls evs =
         if truthy (read_value env w REFRESH_TOKEN_KEY)
         then [refresh_request (read_value env w REFRESH_TOKEN_KEY)] else []) ∧
  (∀ refreshToken w,
     axios_post env (API_BASE_URL +:+ "/auth/refresh")
       (JsObject [("refresh_token", refreshToken)]) w
     = (record_event (Wire GlobalAxios (refresh_request refreshToken)) w,
        settle (refresh_request refreshToken)
          (server env (log w) GlobalAxios (refresh_request refreshToken)))) ∧
  (∀ n config w,
     ∃ evs, log (api env (S (S n)) config w).1 = log w ++ evs ∧
       (global_calls evs = [] ∨
        ∃ rt, rt ≠ EmptyString ∧ global_calls evs = [refresh_request (JsString rt)])).
Proof.
  split; [|split; [|split]].
  - intros refreshToken. repeat split.
  - intros originalRequest w.
    destruct (refresh_tokens env originalRequest w) as [w' r] eqn:E.
    destruct (refresh_tokens_trace env _ _ _ _ E) as (_ & _ & _ & evs & Hlog & (Ha & _ & Hg) & _).
    eauto.
  - reflexivity.
  - intros n config w.
    destruct (api env (S (S n)) config w) as [w' r] eqn:E.
    destruct (api_run env n config w w' r E) as (_ & _ & _ & evs & Hlog & _ & Hg & _).
    eauto.
Qed.


(** C2, amended.  A 401 on a request that is not yet marked, with a
    non-empty refresh token stored and readable, whose refresh call fails
    (no reply, a status outside 2xx, or a payload without a string
    [access_token]): provided the store's deletions succeed, the hook
    issues exactly that one refresh call and no resubmission, ends with
    the two deletions of [clearTokens], leaves neither token stored, and
    rejects with the original 401 error, the one it received, whose config
    now carries the marker, and not the error of the refresh. *)
Theorem refresh_failure_clears_tokens env api config response w rt :
  status response = 401 → _retry config = false →
  storage_fault env (log w) (GetItem REFRESH_TOKEN_KEY) = false →
  store w !! REFRESH_TOKEN_KEY = Some rt → rt ≠ EmptyString →
  refresh_fails (server env (log w ++ [Store (GetItem REFRESH_TOKEN_KEY)])
                   GlobalAxios (refresh_request (JsString rt))) →
  deletes_succeed env →
  ∃ w' evs,
    response_rejected env api (AxiosError (Some config) (Some response)) w
    = (w', Throw (AxiosError (Some (set_retry config)) (Some response))) ∧
    store w' !! ACCESS_TOKEN_KEY = None ∧
    store w' !! REFRESH_TOKEN_KEY = None ∧
    log w' = log w ++ evs ++ [Store (DeleteItem ACCESS_TOKEN_KEY);
                              Store (DeleteItem REFRESH_TOKEN_KEY)] ∧
    global_calls evs = [refresh_request (JsString rt)] ∧
    api_calls evs = [].
Proof.
  intros Hs Hr Hf Hrt Hne Hfail Hdel.
  assert (Hread : read_value env w REFRESH_TOKEN_KEY = JsString rt).
  { unfold read_value. rewrite Hf, Hrt. reflexivity. }
  destruct (refresh_tokens_fails env (set_retry config) w rt) as (w0 & e & Hb); try done.
  destruct (refresh_tokens_trace env _ _ _ _ Hb)
    as (_ & _ & _ & evs & Hlog0 & (Hapi & _ & Hglobal) & _).
  rewrite Hread, truthy_JsString in Hglobal by done.
  destruct (refresh_caught env _ w w0 e Hb Hdel) as (w' & Hc & Ha & Hb' & _ & _ & Hlog).
  exists w', evs. rewrite response_rejected_401 by done. rewrite Hc.
  rewrite Hlog, Hlog0, <- app_assoc. done.
Qed.

(** ** The facade and the session manager *)

Lemma loading_updates_app l l' :
  loading_updates (l ++ l') = loading_updates l ++ loading_updates l'.
Proof. apply omap_app. Qed.

Lemma loading_updates_react l : react_events l = [] → loading_updates l = [].
Proof.
  induction l as [|e l IH]; [done|]. destruct e; cbn; try done; auto.
Qed.

Lemma quiet_transport {A} (m : M A) : quiet m → transport m.
Proof.
  intros H w w' r E. destruct (H _ _ _ E) as (? & ? & ? & ops & Hlog).
  repeat (split; [done|]). exists (map Store ops). split; [done|]. apply react_events_store.
Qed.

Lemma transport_bind {A B} (m : M A) (f : A → M B) :
  transport m → (∀ a, transport (f a)) → transport (m ≫= f).
Proof.
  intros Hm Hf w w' r. unfold mbind, M_bind.
  destruct (m w) as [w1 [a| |]] eqn:E; destruct (Hm _ _ _ E) as (? & Hu & Hl & evs & Hlog & Hre).
  - intros E2. destruct (Hf a _ _ _ E2) as (? & Hu2 & Hl2 & evs2 & Hlog2 & Hre2).
    split; [done|]. split; [congruence|]. split; [congruence|].
    exists (evs ++ evs2). rewrite Hlog2, Hlog, app_assoc, react_events_app, Hre, Hre2. done.
  - intros [= <- <-]. repeat (split; [done|]). eauto.
  - done.
Qed.

Lemma transport_try_finally {A} (m : M A) (fin : M unit) :
  transport m → transport fin → transport (try_finally m fin).
Proof.
  intros Hm Hf w w' r. unfold try_finally.
  destruct (m w) as [w1 r1] eqn:E. destruct (Hm _ _ _ E) as (? & Hu & Hl & evs & Hlog & Hre).
  destruct (fin w1) as [w2 r2] eqn:E2.
  destruct (Hf _ _ _ E2) as (? & Hu2 & Hl2 & evs2 & Hlog2 & Hre2).
  assert (Hlog' : log w2 = log w ++ (evs ++ evs2)) by (by rewrite Hlog2, Hlog, app_assoc).
  assert (Hre' : react_events (evs ++ evs2) = []) by (by rewrite react_events_app, Hre, Hre2).
  destruct r1 as [a|e|]; [| |done]; destruct r2 as [[]|e2|]; try done;
    intros [= <- <-]; (split; [done|]); (split; [congruence|]); (split; [congruence|]); eauto.
Qed.

Lemma quiet_prop v k : quiet (prop v k).
Proof.
  unfold prop. destruct (get_prop v k); [apply quiet_mret|].
  intros w w' r [= <- <-]. repeat (split; [done|]). exists []. cbn. by rewrite app_nil_r.
Qed.

Section Session.
Variable env : Env.

Lemma transport_api n config : transport (api env (S (S n)) config).
Proof.
  intros w w' r E. destruct (api_run env n config w w' r E) as (? & ? & ? & evs & ? & ? & _).
  repeat (split; [done|]). eauto.
Qed.

Lemma transport_getProfile n : transport (AuthAPI.getProfile env (S (S n))).
Proof.
  apply transport_bind; [apply transport_api|].
  intros response. apply quiet_transport, quiet_mret.
Qed.

Lemma transport_logout n : transport (AuthAPI.logout env (S (S n))).
Proof.
  apply transport_try_finally.
  - apply transport_bind; [apply transport_api|]. intros _. apply quiet_transport, quiet_mret.
  - apply quiet_transport, quiet_clearTokens.
Qed.

Lemma AuthAPI_login_run n email password w w' r :
  AuthAPI.login env (S (S n)) email password w = (w', r) →
  r ≠ OutOfFuel ∧ user w' = user w ∧ isLoading w' = isLoading w ∧
  (∃ evs c1, log w' = log w ++ evs ∧ react_events evs = [] ∧
     (api_calls evs = [c1] ∨
      ∃ c2, api_calls evs = [c1; c2] ∧ _retry c1 = false ∧ _retry c2 = true)) ∧
  (∀ d, r = Return d →
     ∃ sa sr, get_prop d "access_token" = Some (JsString sa) ∧
              get_prop d "refresh_token" = Some (JsString sr) ∧
              store w' !! ACCESS_TOKEN_KEY = Some sa ∧
              store w' !! REFRESH_TOKEN_KEY = Some sr).
Proof.
  unfold AuthAPI.login, api_post. unfold mbind, M_bind at 1.
  destruct (api env (S (S n)) _ w) as [w1 r1] eqn:E.
  destruct (api_run env n _ w w1 r1 E)
    as (Hr1 & Hu & Hl & evs & Hlog & Hre & _ & c1 & _ & Hc).
  assert (Hcalls : ∀ ops, ∃ evs' c, log w1 ++ map Store ops = log w ++ evs' ∧
            react_events evs' = [] ∧
            (api_calls evs' = [c] ∨
             ∃ c2, api_calls evs' = [c; c2] ∧ _retry c = false ∧ _retry c2 = true)).
  { intros ops. exists (evs ++ map Store ops), c1.
    rewrite Hlog, app_assoc, react_events_app, api_calls_app, Hre.
    rewrite react_events_store, api_calls_store, !app_nil_r.
    split; [done|]. split; [done|].
    destruct Hc as [Hc | (c2 & reply & Hc & ? & ? & _)]; [by left|right; eauto]. }
  assert (Hcalls0 : ∃ evs' c, log w1 = log w ++ evs' ∧
            react_events evs' = [] ∧
            (api_calls evs' = [c] ∨
             ∃ c2, api_calls evs' = [c; c2] ∧ _retry c = false ∧ _retry c2 = true)).
  { destruct (Hcalls []) as (evs' & c & H & ?). cbn in H. rewrite app_nil_r in H. eauto. }
  destruct r1 as [response|e|]; [| |done].
  - unfold prop. destruct (get_prop (data response) "access_token") as [a|] eqn:Ha.
    + unfold mbind, M_bind at 1. unfold mret, M_ret at 1.
      destruct (get_prop (data response) "refresh_token") as [rf|] eqn:Hrf.
      * unfold mbind, M_bind, mret, M_ret.
        destruct (TokenService.setTokens env a rf w1) as [w2 r2] eqn:Hset.
        destruct (quiet_setTokens env _ _ _ _ _ Hset) as (Hr2 & Hu2 & Hl2 & ops & Hlog2).
        destruct r2 as [[]|e|]; [| |done]; intros [= <- <-];
          (split; [done|]); (split; [congruence|]); (split; [congruence|]);
          (split; [rewrite Hlog2; apply Hcalls|]); [|done].
        intros d [= <-].
        destruct (setTokens_Return _ _ _ _ _ Hset) as (sa & sr & -> & -> & Hst & _).
        exists sa, sr. rewrite Hst.
        pose proof (lookup_stored (store w1) sa sr) as [? ?]. done.
      * unfold throw, mbind, M_bind. intros [= <- <-]. done.
    + unfold throw, mbind, M_bind. intros [= <- <-]. done.
  - intros [= <- <-]. done.
Qed.

End Session.

Lemma transport_keeps_loading {A} (m : M A) : transport m → keeps_loading m.
Proof.
  intros H w w' r E. destruct (H _ _ _ E) as (? & _ & _ & evs & ? & ?).
  split; [done|]. exists evs. split; [done|]. by apply loading_updates_react.
Qed.

Lemma keeps_loading_bind {A B} (m : M A) (f : A → M B) :
  keeps_loading m → (∀ a, keeps_loading (f a)) → keeps_loading (m ≫= f).
Proof.
  intros Hm Hf w w' r. unfold mbind, M_bind.
  destruct (m w) as [w1 [a| |]] eqn:E; destruct (Hm _ _ _ E) as (? & evs & Hlog & Hre).
  - intros E2. destruct (Hf a _ _ _ E2) as (? & evs2 & Hlog2 & Hre2).
    split; [done|]. exists (evs ++ evs2).
    rewrite Hlog2, Hlog, app_assoc, loading_updates_app, Hre, Hre2. done.
  - intros [= <- <-]. split; [done|]. eauto.
  - done.
Qed.

Lemma keeps_loading_try_catch {A} (m : M A) (h : JsError → M A) :
  keeps_loading m → (∀ e, keeps_loading (h e)) → keeps_loading (try_catch m h).
Proof.
  intros Hm Hh w w' r. unfold try_catch.
  destruct (m w) as [w1 [a|e|]] eqn:E; destruct (Hm _ _ _ E) as (? & evs & Hlog & Hre).
  - intros [= <- <-]. split; [done|]. eauto.
  - intros E2. destruct (Hh e _ _ _ E2) as (? & evs2 & Hlog2 & Hre2).
    split; [done|]. exists (evs ++ evs2).
    rewrite Hlog2, Hlog, app_assoc, loading_updates_app, Hre, Hre2. done.
  - done.
Qed.

Lemma keeps_loading_setUser u : keeps_loading (AuthContext.setUser u).
Proof. intros w w' r [= <- <-]. split; [done|]. by exists [SetUser u]. Qed.

Lemma keeps_loading_mret {A} (a : A) : keeps_loading (mret a).
Proof. apply transport_keeps_loading, quiet_transport, quiet_mret. Qed.

Section SessionManager.
Variable env : Env.


(** [logout] in general.  [clearTokens] is always attempted after the
    remote call, whether that call returned or threw.  When the clearing
    returns both tokens are gone; then, if the remote call returned,
    [logout] returns and the user is [null], and if the remote call threw,
    [logout] rethrows that very error and [setUser(null)] is skipped.
    When the clearing itself throws, that error is rethrown and the user
    is left as it was. *)
Theorem logout_clears_and_rethrows n w :
  let '(w1, r1) := api_post env (S (S n)) "/auth/logout" JsUndefined w in
  let '(w2, r2) := TokenService.clearTokens env w1 in
  let '(w', r) := AuthContext.logout env (S (S n)) w in
  match r2 with
  | Return _ =>
      store w' !! ACCESS_TOKEN_KEY = None ∧
      store w' !! REFRESH_TOKEN_KEY = None ∧
      match r1 with
      | Return _ =>
          r = Return tt ∧ user w' = JsNull ∧ AuthContext.isAuthenticated w' = false
      | Throw e => r = Throw e ∧ user w' = user w
      | OutOfFuel => False
      end
  | Throw e2 => r = Throw e2 ∧ user w' = user w
  | OutOfFuel => False
  end.
Proof.
  unfold AuthContext.logout, AuthAPI.logout.
  destruct (api_post env (S (S n)) "/auth/logout" JsUndefined w) as [w1 r1] eqn:E.
  destruct (transport_api env n _ _ _ _ E) as (Hr1 & Hu & _).
  destruct (TokenService.clearTokens env w1) as [w2 r2] eqn:Ec.
  destruct (quiet_clearTokens env _ _ _ Ec) as (Hr2 & Hu2 & _).
  unfold mbind, M_bind, try_finally, mret, M_ret. rewrite E.
  destruct r2 as [[]|e2|]; [| |done].
  - destruct (clearTokens_Return _ _ _ Ec) as (Hst & _).
    pose proof (lookup_cleared (store w1)) as [? ?].
    destruct r1 as [response|e|]; [| |done]; rewrite Ec; cbn; rewrite ?Hst; split_and!;
      try done; congruence.
  - destruct r1 as [response|e|]; [| |done]; rewrite Ec; split; congruence.
Qed.

End SessionManager.

(** ** Round trip of the token store *)

(** C10.  After [setTokens a b] has returned, a read of the access token
    that does not fail gives [a] and a read of the refresh token that does
    not fail gives [b]; after [clearTokens] has returned, either read gives
    [null]. *)
Theorem token_store_round_trip env a b w w1 w0 w2 :
  TokenService.setTokens env (JsString a) (JsString b) w = (w1, Return tt) →
  storage_fault env (log w1) (GetItem ACCESS_TOKEN_KEY) = false →
  storage_fault env (log w1) (GetItem REFRESH_TOKEN_KEY) = false →
  TokenService.clearTokens env w0 = (w2, Return tt) →
  (TokenService.getAccessToken env w1).2 = Return (JsString a) ∧
  (TokenService.getRefreshToken env w1).2 = Return (JsString b) ∧
  (TokenService.getAccessToken env w2).2 = Return JsNull ∧
  (TokenService.getRefreshToken env w2).2 = Return JsNull.
Proof.
  intros Hset Hfa Hfr Hclear.
  destruct (setTokens_Return _ _ _ _ _ Hset) as (sa & sr & [= <-] & [= <-] & Hst & _).
  destruct (clearTokens_Return _ _ _ Hclear) as (Hst2 & _).
  rewrite !getAccessToken_run, !getRefreshToken_run. cbn [snd]. unfold read_value.
  rewrite Hfa, Hfr, Hst, Hst2.
  pose proof (lookup_stored (store w) a b) as [-> ->].
  pose proof (lookup_cleared (store w0)) as [-> ->].
  split; [done|]. split; [done|]. split; by destruct (storage_fault env (log w2) _).
Qed.

Lemma token_store_round_trip_witness :
  (TokenService.getAccessToken offline
     (TokenService.setTokens offline (JsString "A") (JsString "B") initial_world).1).2
  = Return (JsString "A") ∧
  (TokenService.getRefreshToken offline
     (TokenService.setTokens offline (JsString "A") (JsString "B") initial_world).1).2
  = Return (JsString "B") ∧
  (TokenService.getAccessToken offline (TokenService.clearTokens offline signed_in).1).2
  = Return JsNull ∧
  (TokenService.getRefreshToken offline (TokenService.clearTokens offline signed_in).1).2
  = Return JsNull.
Proof.
  apply (token_store_round_trip offline "A" "B" initial_world _ signed_in _);
    reflexivity.
Defined.

Lemma request_interceptor_bearer_witness :
  (∃ config',
     (request_interceptor offline dashboard_request signed_in).2 = Return config' ∧
     config' = set_header "Authorization" "Bearer A1" dashboard_request ∧
     filter (λ kv, kv.1 = "Authorization") (headers config')
     = {[ "Authorization" := "Bearer A1" ]}) ∧
  (request_interceptor offline dashboard_request initial_world).2
  = Return dashboard_request.
Proof.
  split.
  - destruct (request_interceptor_bearer offline dashboard_request signed_in)
      as (config' & Hrun & Hpresent & _).
    exists config'. split; [by rewrite Hrun|].
    apply (Hpresent "A1"); [reflexivity | reflexivity | discriminate].
  - destruct (request_interceptor_bearer offline dashboard_request initial_world)
      as (config' & Hrun & _ & Habsent).
    rewrite Hrun. cbn [snd]. f_equal. apply Habsent. right. left. reflexivity.
Defined.

(** ** The properties on concrete runs *)

Lemma no_refresh_token_propagates_witness :
  ∃ w', response_rejected offline (api offline 1)
          (AxiosError (Some dashboard_request) (Some unauthorized)) initial_world
        = (w', Throw (AxiosError (Some (set_retry dashboard_request)) (Some unauthorized))) ∧
        store w' = store initial_world ∧
        log w' = log initial_world ++ [Store (GetItem REFRESH_TOKEN_KEY)].
Proof.
  apply (no_refresh_token_propagates offline (api offline 1) dashboard_request
           unauthorized initial_world); reflexivity.
Defined.

Lemma refresh_failure_clears_tokens_witness :
  ∃ w' evs,
    response_rejected refresh_rejected (api refresh_rejected 1)
      (AxiosError (Some dashboard_request) (Some unauthorized)) signed_in
    = (w', Throw (AxiosError (Some (set_retry dashboard_request)) (Some unauthorized))) ∧
    store w' !! ACCESS_TOKEN_KEY = None ∧
    store w' !! REFRESH_TOKEN_KEY = None ∧
    log w' = log signed_in ++ evs ++ [Store (DeleteItem ACCESS_TOKEN_KEY);
                                      Store (DeleteItem REFRESH_TOKEN_KEY)] ∧
    global_calls evs = [refresh_request (JsString "R1")] ∧
    api_calls evs = [].
Proof.
  apply (refresh_failure_clears_tokens refresh_rejected (api refresh_rejected 1)
           dashboard_request unauthorized signed_in "R1").
  - reflexivity.
  - reflexivity.
  - reflexivity.
  - reflexivity.
  - discriminate.
  - left. reflexivity.
  - intros l key. reflexivity.
Defined.



(** C3.  The defect on a concrete run: without network, [logout] of a
    signed-in session deletes both tokens, rethrows the transport error
    and skips [setUser(null)], so the session still counts as
    authenticated; the claim has it swallow the error and end with no
    user. *)
Lemma logout_offline_keeps_user :
  let run := AuthContext.logout offline 2 signed_in in
  AuthContext.isAuthenticated signed_in = true ∧
  run.2 = Throw (AxiosError
                   (Some (set_header "Authorization" "Bearer A1"
                            (mergeConfig {| method := POST; url := "/auth/logout";
                                            body := JsUndefined; headers := ∅;
                                            _retry := false |})))
                   None) ∧
  store run.1 !! ACCESS_TOKEN_KEY = None ∧
  store run.1 !! REFRESH_TOKEN_KEY = None ∧
  user run.1 = user signed_in ∧
  AuthContext.isAuthenticated run.1 = true ∧
  ¬ (run.2 = Return tt ∧ AuthContext.isAuthenticated run.1 = false).
Proof.
  cbv zeta.
  assert (Hu : user (AuthContext.logout offline 2 signed_in).1 = user signed_in)
    by (vm_compute; reflexivity).
  split; [reflexivity|]. split; [vm_compute; reflexivity|].
  split; [vm_compute; reflexivity|]. split; [vm_compute; reflexivity|].
  split; [exact Hu|].
  split; [unfold AuthContext.isAuthenticated; rewrite Hu; reflexivity|].
  intros [_ H]. unfold AuthContext.isAuthenticated in H. rewrite Hu in H. discriminate.
Qed.

(** The mock backend that always answers 401. *)
Example always_401_one_refresh_one_retry :
  let run := api always_401 2 dashboard_request signed_in in
  global_calls (log run.1) = [refresh_request (JsString "R1")] ∧
  map _retry (api_calls (log run.1)) = [false; true] ∧
  map (λ c, headers c !! "Authorization") (api_calls (log run.1))
  = [Some "Bearer A1"; Some "Bearer A2"] ∧
  (∃ c, run.2 = Throw (AxiosError (Some c) (Some unauthorized))) ∧
  store run.1 !! ACCESS_TOKEN_KEY = Some "A2" ∧
  store run.1 !! REFRESH_TOKEN_KEY = Some "R1".
Proof.
  cbv zeta. split; [vm_compute; reflexivity|]. split; [vm_compute; reflexivity|].
  split; [vm_compute; reflexivity|]. split; [|split; vm_compute; reflexivity].
  eexists. vm_compute. reflexivity.
Qed.

Example login_then_present :
  let run := AuthContext.login welcoming 2 "u@x.com" "pw" initial_world in
  run.2 = Return tt ∧ user run.1 = user signed_in ∧
  AuthContext.isAuthenticated run.1 = true ∧
  store run.1 = store signed_in.
Proof. cbv zeta. repeat split; vm_compute; reflexivity. Qed.

Example checkAuth_rejected_session :
  let run := AuthContext.checkAuth refresh_rejected 2 cold_start in
  run.2 = Return tt ∧ user run.1 = JsNull ∧ isLoading run.1 = false ∧
  store run.1 = ∅ ∧ loading_updates (log run.1) = [false].
Proof. cbv zeta. repeat split; vm_compute; reflexivity. Qed.

Example checkAuth_restores_session :
  let run := AuthContext.checkAuth welcoming 2 cold_start in
  run.2 = Return tt ∧ user run.1 = user signed_in ∧ isLoading run.1 = false ∧
  loading_updates (log run.1) = [false].
Proof. cbv zeta. repeat split; vm_compute; reflexivity. Qed.

Example logout_online :
  let run := AuthContext.logout welcoming 2 signed_in in
  run.2 = Return tt ∧ user run.1 = JsNull ∧ store run.1 = ∅.
Proof. cbv zeta. repeat split; vm_compute; reflexivity. Qed.

Example refresh_rejected_signs_out :
  let run := api refresh_rejected 2 dashboard_request signed_in in
  global_calls (log run.1) = [refresh_request (JsString "R1")] ∧
  map _retry (api_calls (log run.1)) = [false] ∧
  run.2 = Throw (AxiosError
                   (Some (set_retry (set_header "Authorization" "Bearer A1"
                                       (mergeConfig dashboard_request))))
                   (Some unauthorized)) ∧
  store run.1 = ∅.
Proof. cbv zeta. repeat split; vm_compute; reflexivity. Qed.

(** A rejected login while stale tokens are still stored: the session
    manager does not try again, the inbound hook resubmits once. *)
Example login_rejected_with_stale_tokens :
  let run := AuthContext.login always_401 2 "u@x.com" "pw" cold_start in
  map (λ c, (url c, _retry c)) (api_calls (log run.1))
  = [("/auth/login", false); ("/auth/login", true)] ∧
  (∃ c, run.2 = Throw (AxiosError (Some c) (Some unauthorized))) ∧
  user run.1 = JsNull.
Proof.
  cbv zeta. split; [vm_compute; reflexivity|]. split; [|vm_compute; reflexivity].
  eexists. vm_compute. reflexivity.
Qed.

Example login_rejected :
  let run := AuthContext.login always_401 2 "u@x.com" "pw" initial_world in
  map (λ c, (url c, _retry c)) (api_calls (log run.1)) = [("/auth/login", false)] ∧
  (∃ c, run.2 = Throw (AxiosError (Some c) (Some unauthorized))) ∧
  user run.1 = JsNull ∧ store run.1 = ∅.
Proof.
  cbv zeta. split; [vm_compute; reflexivity|].
  split; [|split; vm_compute; reflexivity].
  eexists. vm_compute. reflexivity.
Qed.

(** ** Requests that are not refreshed *)

Lemma settle_not_401 config reply e :
  not_401 reply → settle config reply = Throw e →
  ∃ response, e = AxiosError (Some config) response ∧ eligible config response = false.
Proof.
  intros Hn. destruct reply as [s d|]; cbn.
  - destruct (validateStatus s); [done|]. intros [= <-]. eexists. split; [done|].
    unfold eligible. cbn. destruct (Z.eqb_spec s 401) as [->|]; [|done].
    by destruct (Hn d).
  - intros [= <-]. eexists. split; [done|]. done.
Qed.

(** X1.  When the backend's answer to the first submission is anything but
    a 401 (a 2xx, another status, or no answer at all), a call of [api]
    is exactly: one read of the access token, one request on the wire of
    the instance, and the settled answer as the outcome.  No refresh, no
    second request, no write to the store. *)
Theorem api_single_request env n config w :
  let w1 := record_event (Store (GetItem ACCESS_TOKEN_KEY)) w in
  let c1 := outbound env w config in
  not_401 (server env (log w1) ApiInstance c1) →
  api env (S n) config w
  = (record_event (Wire ApiInstance c1) w1,
     settle c1 (server env (log w1) ApiInstance c1)).
Proof.
  intros w1 c1 Hn. rewrite api_step. cbn zeta. fold w1 c1.
  destruct (settle c1 _) as [response|e|] eqn:E; [done| |done].
  destruct (settle_not_401 _ _ _ Hn E) as (response & -> & Hel).
  by apply response_rejected_ineligible.
Qed.

Lemma api_single_request_witness :
  (api offline 1 dashboard_request signed_in).2
  = Throw (AxiosError (Some (outbound offline signed_in dashboard_request)) None) ∧
  store (api offline 1 dashboard_request signed_in).1 = store signed_in ∧
  api_calls (log (api offline 1 dashboard_request signed_in).1)
  = [outbound offline signed_in dashboard_request].
Proof.
  rewrite (api_single_request offline 0 dashboard_request signed_in).
  - repeat split.
  - intros d. discriminate.
Defined.

(** ** A granted refresh *)

Lemma refresh_tokens_granted env originalRequest w rt s d a :
  storage_fault env (log w) (GetItem REFRESH_TOKEN_KEY) = false →
  store w !! REFRESH_TOKEN_KEY = Some rt → rt ≠ EmptyString →
  server env (log w ++ [Store (GetItem REFRESH_TOKEN_KEY)]) GlobalAxios
    (refresh_request (JsString rt)) = Reply s d →
  validateStatus s = true →
  get_prop d "access_token" = Some (JsString a) →
  writes_succeed env →
  ∃ w', refresh_tokens env originalRequest w
        = (w', Return (Some (set_header "Authorization" ("Bearer " +:+ a) originalRequest))) ∧
        store w' !! ACCESS_TOKEN_KEY = Some a ∧
        user w' = user w ∧ isLoading w' = isLoading w ∧
        ∃ sr, log w' = log w ++ [Store (GetItem REFRESH_TOKEN_KEY);
                                 Wire GlobalAxios (refresh_request (JsString rt));
                                 Store (GetItem REFRESH_TOKEN_KEY);
                                 Store (SetItem ACCESS_TOKEN_KEY a);
                                 Store (SetItem REFRESH_TOKEN_KEY sr)].
Proof.
  intros Hf Hrt Hne Hreply Hv Ha Hw.
  assert (Hread : read_value env w REFRESH_TOKEN_KEY = JsString rt).
  { unfold read_value. rewrite Hf, Hrt. reflexivity. }
  rewrite refresh_tokens_present by (rewrite Hread; by apply truthy_JsString).
  cbn zeta. rewrite Hread.
  change (log (record_event (Store (GetItem REFRESH_TOKEN_KEY)) w))
    with (log w ++ [Store (GetItem REFRESH_TOKEN_KEY)]).
  rewrite Hreply. cbn [settle]. rewrite Hv. cbn [data]. rewrite Ha.
  set (reread := read_value env _ REFRESH_TOKEN_KEY).
  assert (Hor : ∃ sr, js_or reread (JsString EmptyString) = JsString sr).
  { unfold js_or. destruct (truthy reread) eqn:Ht; [|eauto].
    destruct (read_value_truthy _ _ _ Ht) as (sr & Hsr & _). eauto. }
  destruct Hor as (sr & ->). rewrite setTokens_ok by done.
  eexists. split; [reflexivity|]. cbn [store with_store user isLoading log record_event].
  pose proof (lookup_stored (store w) a sr) as [? ?].
  split; [done|]. split; [done|]. split; [done|].
  exists sr. by rewrite <- !app_assoc.
Qed.

Lemma outbound_bearer env w config a :
  store w !! ACCESS_TOKEN_KEY = Some a →
  headers config !! "Authorization" = Some ("Bearer " +:+ a) →
  headers (outbound env w config) !! "Authorization" = Some ("Bearer " +:+ a).
Proof.
  intros Hst Hh. unfold outbound, read_value. cbn zeta. rewrite Hst.
  assert (Hm : headers (mergeConfig config) !! "Authorization" = Some ("Bearer " +:+ a)).
  { cbn. by apply lookup_union_Some_l. }
  destruct (storage_fault _ _ _); [done|]. cbn [from_option].
  destruct (truthy (JsString a)); [|done]. cbn. apply lookup_insert_eq.
Qed.

Lemma outbound_fields env w config :
  method (outbound env w config) = method config ∧
  url (outbound env w config) = url config ∧
  body (outbound env w config) = body config.
Proof. unfold outbound. cbn zeta. by destruct (truthy _). Qed.

(** X3.  A 401 on an unmarked request, a non-empty refresh token stored and
    readable, a refresh call granted with a string [access_token], and a
    store whose writes succeed: the hook's outcome is the settled answer
    to one resubmission of the original request (same method, url and
    body), marked, with the new token as its bearer, and the new token is
    in the store by the time it is sent. *)
Theorem refresh_granted_resubmits env n config response w rt s d a :
  status response = 401 → _retry config = false →
  storage_fault env (log w) (GetItem REFRESH_TOKEN_KEY) = false →
  store w !! REFRESH_TOKEN_KEY = Some rt → rt ≠ EmptyString →
  server env (log w ++ [Store (GetItem REFRESH_TOKEN_KEY)]) GlobalAxios
    (refresh_request (JsString rt)) = Reply s d →
  validateStatus s = true →
  get_prop d "access_token" = Some (JsString a) →
  writes_succeed env →
  ∃ w1 c2,
    response_rejected env (api env (S n))
      (AxiosError (Some config) (Some response)) w
    = (record_event (Wire ApiInstance c2) w1,
       settle c2 (server env (log w1) ApiInstance c2)) ∧
    headers c2 !! "Authorization" = Some ("Bearer " +:+ a) ∧
    _retry c2 = true ∧
    method c2 = method config ∧ url c2 = url config ∧ body c2 = body config ∧
    store w1 !! ACCESS_TOKEN_KEY = Some a.
Proof.
  intros Hs Hr Hf Hrt Hne Hreply Hv Ha Hw.
  destruct (refresh_tokens_granted env (set_retry config) w rt s d a)
    as (w' & Hrun & Hsa & _); try done.
  rewrite response_rejected_401 by done. unfold try_catch. rewrite Hrun.
  rewrite api_marked by done. cbn zeta.
  set (request := set_header "Authorization" ("Bearer " +:+ a) (set_retry config)).
  exists (record_event (Store (GetItem ACCESS_TOKEN_KEY)) w'), (outbound env w' request).
  split; [done|].
  split; [apply outbound_bearer; [done|apply lookup_insert_eq]|].
  split; [by rewrite outbound_retry|].
  pose proof (outbound_fields env w' request) as (-> & -> & ->). done.
Qed.

Lemma refresh_granted_resubmits_witness :
  ∃ w1 c2,
    response_rejected always_401 (api always_401 1)
      (AxiosError (Some dashboard_request) (Some unauthorized)) signed_in
    = (record_event (Wire ApiInstance c2) w1,
       settle c2 (server always_401 (log w1) ApiInstance c2)) ∧
    headers c2 !! "Authorization" = Some "Bearer A2" ∧
    _retry c2 = true ∧
    method c2 = GET ∧ url c2 = "/dashboard" ∧ body c2 = JsUndefined ∧
    store w1 !! ACCESS_TOKEN_KEY = Some "A2".
Proof.
  apply (refresh_granted_resubmits always_401 0 dashboard_request unauthorized
           signed_in "R1" 200 fresh_token "A2").
  - reflexivity.
  - reflexivity.
  - reflexivity.
  - reflexivity.
  - discriminate.
  - reflexivity.
  - reflexivity.
  - reflexivity.
  - intros l key value. reflexivity.
Defined.

(** ** Partial writes *)

(** X4.  [setTokens] writes the access token first and the refresh token
    second, and is not atomic: when it throws, the stored refresh token is
    the old one, and the store is either untouched or already holds the
    new access token beside the old refresh token. *)
Theorem setTokens_failure env a b w w' e :
  TokenService.setTokens env a b w = (w', Throw e) →
  e = SecureStoreError ∧
  store w' !! REFRESH_TOKEN_KEY = store w !! REFRESH_TOKEN_KEY ∧
  (store w' = store w ∨
   ∃ sa, a = JsString sa ∧ store w' = <[ACCESS_TOKEN_KEY := sa]> (store w)).
Proof.
  unfold TokenService.setTokens, SecureStore.setItemAsync, mbind, M_bind.
  destruct a as [| |sa|]; try (intros [= <- <-]; by auto).
  destruct (storage_fault env (log w) _); [intros [= <- <-]; by auto|].
  assert (Hkeep : <[ACCESS_TOKEN_KEY := sa]> (store w) !! REFRESH_TOKEN_KEY
                  = store w !! REFRESH_TOKEN_KEY)
    by (by rewrite lookup_insert_ne).
  assert (Hdone : ∀ w1 : World,
            store w1 = <[ACCESS_TOKEN_KEY := sa]> (store w) →
            (w1, @Throw unit SecureStoreError) = (w', Throw e) →
            e = SecureStoreError ∧
            store w' !! REFRESH_TOKEN_KEY = store w !! REFRESH_TOKEN_KEY ∧
            (store w' = store w ∨
             ∃ sa0, JsString sa = JsString sa0 ∧
                    store w' = <[ACCESS_TOKEN_KEY := sa0]> (store w))).
  { intros w1 Hst [= <- <-]. rewrite Hst. split; [done|]. split; [done|]. right. eauto. }
  destruct b as [| |sb|]; try (by apply Hdone).
  cbn [record_event with_store log store user isLoading].
  destruct (storage_fault env _ (SetItem REFRESH_TOKEN_KEY sb)); [by apply Hdone|done].
Qed.

Lemma setTokens_failure_witness :
  let run := TokenService.setTokens second_write_fails (JsString "A2") (JsString "R2")
               signed_in in
  run.2 = Throw SecureStoreError ∧
  store run.1 !! REFRESH_TOKEN_KEY = Some "R1" ∧
  store run.1 !! ACCESS_TOKEN_KEY = Some "A2".
Proof.
  cbv zeta.
  destruct (setTokens_failure second_write_fails (JsString "A2") (JsString "R2")
              signed_in
              (TokenService.setTokens second_write_fails (JsString "A2") (JsString "R2")
                 signed_in).1
              SecureStoreError) as (_ & Hr & _).
  - vm_compute. reflexivity.
  - split; [vm_compute; reflexivity|]. split; [rewrite Hr; reflexivity|].
    vm_compute. reflexivity.
Defined.

(** ** refreshUser and signup *)

Section MoreSession.
Variable env : Env.

(** X7.  [refreshUser] never throws.  It sets the user once, as its last
    step: to the profile's [user] when the profile call returns one, to
    [null] on any failure.  Unlike [checkAuth] it leaves the token store
    as the profile call left it (no [clearTokens]) and does not touch
    [isLoading]. *)
Theorem refreshUser_never_throws n w :
  let '(w1, r1) := AuthAPI.getProfile env (S (S n)) w in
  let '(w', r) := AuthContext.refreshUser env (S (S n)) w in
  r = Return tt ∧
  store w' = store w1 ∧ isLoading w' = isLoading w ∧
  user w' = match r1 with
            | Return d => default JsNull (get_prop d "user")
            | _ => JsNull
            end ∧
  log w' = log w1 ++ [SetUser (user w')].
Proof.
  destruct (AuthAPI.getProfile env (S (S n)) w) as [w1 r1] eqn:E.
  destruct (transport_getProfile env n _ _ _ E) as (Hr1 & _ & Hl & _).
  unfold AuthContext.refreshUser, try_catch. unfold mbind, M_bind at 1. rewrite E.
  destruct r1 as [d|e|]; [| |done].
  - unfold prop, mbind, M_bind. destruct (get_prop d "user") as [u|]; cbn; done.
  - cbn. done.
Qed.

End MoreSession.

(** ** The requests of a call *)

Section Requests.
Variable env : Env.

(** The requests one call of the instance sends: the request as the
    outbound hook left it and, after a granted refresh, the same request
    marked, with the new bearer, as the outbound hook left it then. *)
Lemma api_calls_exact n config w w' r :
  api env (S (S n)) config w = (w', r) →
  r ≠ OutOfFuel ∧ user w' = user w ∧ isLoading w' = isLoading w ∧
  ∃ evs, log w' = log w ++ evs ∧ react_events evs = [] ∧
    (api_calls evs = [outbound env w config] ∨
     ∃ w3 value,
       _retry config = false ∧
       api_calls evs
       = [outbound env w config;
          outbound env w3
            (set_header "Authorization" value (set_retry (outbound env w config)))]).
Proof.
  rewrite api_step. cbn zeta.
  set (w1 := record_event (Store (GetItem ACCESS_TOKEN_KEY)) w).
  set (c1 := outbound env w config).
  assert (Hlog2 : log (record_event (Wire ApiInstance c1) w1)
                  = log w ++ [Store (GetItem ACCESS_TOKEN_KEY); Wire ApiInstance c1]).
  { cbn. by rewrite <- app_assoc. }
  assert (Hone : ∃ evs, log (record_event (Wire ApiInstance c1) w1) = log w ++ evs ∧
            react_events evs = [] ∧
            (api_calls evs = [c1] ∨
             ∃ w3 value, _retry config = false ∧
               api_calls evs
               = [c1; outbound env w3 (set_header "Authorization" value (set_retry c1))])).
  { eexists. split; [exact Hlog2|]. split; [done|]. by left. }
  destruct (settle _ _) as [response|e|] eqn:E.
  - intros [= <- <-]. done.
  - destruct (settle_Throw _ _ _ E) as (response & ->).
    destruct (eligible c1 response) eqn:Hel.
    + destruct (eligible_true _ _ Hel) as (r401 & -> & Hs & Hr).
      rewrite response_rejected_401 by done.
      destruct (try_catch _ _ _) as [w3 r3] eqn:Hstep.
      destruct (refresh_step_trace env _ _ _ _ Hstep)
        as (Hr3 & Hu & Hl & _ & evs & Hlog & (Ha & Hre & _) & Hreq).
      assert (Hlog3 : log w3 = log w ++
                ([Store (GetItem ACCESS_TOKEN_KEY); Wire ApiInstance c1] ++ evs)).
      { rewrite Hlog, Hlog2, <- app_assoc. done. }
      assert (Hpre : ∃ evs0, log w3 = log w ++ evs0 ∧ react_events evs0 = [] ∧
                (api_calls evs0 = [c1] ∨
                 ∃ w4 value, _retry config = false ∧
                   api_calls evs0
                   = [c1; outbound env w4 (set_header "Authorization" value (set_retry c1))])).
      { eexists. split; [exact Hlog3|].
        rewrite react_events_app, api_calls_app, Ha, Hre. split; [done|]. by left. }
      destruct r3 as [[request|]|e|]; [| | |done].
      * destruct (Hreq request eq_refl) as ((value & Heq) & _). clear Hreq. subst request.
        rewrite api_marked by done. cbn zeta. intros [= <- <-].
        split; [apply settle_not_OutOfFuel|]. split; [done|]. split; [done|].
        eexists. split.
        { cbn [log record_event]. rewrite Hlog3, <- !app_assoc. reflexivity. }
        rewrite !react_events_app, !api_calls_app, Ha, Hre. cbn.
        split; [done|]. right. exists w3, value. split; [|done].
        unfold c1 in Hr. by rewrite outbound_retry in Hr.
      * intros [= <- <-]. done.
      * intros [= <- <-]. done.
    + rewrite response_rejected_ineligible by done. intros [= <- <-]. done.
  - by destruct (settle_not_OutOfFuel _ _ E).
Qed.

(** The same, read on the fields of the requests. *)
Lemma api_calls_fields n config w w' r :
  api env (S (S n)) config w = (w', r) →
  r ≠ OutOfFuel ∧ user w' = user w ∧ isLoading w' = isLoading w ∧
  ∃ evs rest, log w' = log w ++ evs ∧ react_events evs = [] ∧
    api_calls evs = outbound env w config :: rest ∧
    (length rest ≤ 1)%nat ∧
    Forall (λ c, method c = method config ∧ url c = url config ∧
                 body c = body config ∧ _retry c = true ∧ _retry config = false) rest.
Proof.
  intros E. destruct (api_calls_exact n config w w' r E)
    as (Hr & Hu & Hl & evs & Hlog & Hre & Hc).
  repeat (split; [done|]). exists evs.
  destruct Hc as [Hc | (w3 & value & Hr0 & Hc)].
  - exists []. do 3 (split; [done|]). split; [cbn; lia|constructor].
  - eexists [_]. do 3 (split; [done|]). split; [cbn; lia|].
    constructor; [|constructor].
    rewrite outbound_retry.
    pose proof (outbound_fields env w3
                  (set_header "Authorization" value (set_retry (outbound env w config))))
      as (-> & -> & ->).
    cbn [method url body set_header set_retry].
    pose proof (outbound_fields env w config) as (-> & -> & ->). done.
Qed.

(** The bearer the outbound hook leaves on a request. *)
Lemma outbound_authorization w config :
  headers (outbound env w config) !! "Authorization"
  = if truthy (read_value env w ACCESS_TOKEN_KEY)
    then Some ("Bearer " +:+ to_string (read_value env w ACCESS_TOKEN_KEY))
    else headers config !! "Authorization".
Proof.
  unfold outbound. cbn zeta. destruct (truthy _); cbn.
  - apply lookup_insert_eq.
  - by apply lookup_union_l.
Qed.

End Requests.

(** ** signup *)

Section Signup.
Variable env : Env.

(** What [AuthAPI.login] and [AuthAPI.signup] do with the response of their
    POST. *)
Lemma store_pair_run n u b w w' r :
  (response ← api_post env (S (S n)) u b;
   access_token ← prop (data response) "access_token";
   refresh_token ← prop (data response) "refresh_token";
   TokenService.setTokens env access_token refresh_token;;
   mret (data response)) w = (w', r) →
  r ≠ OutOfFuel ∧ user w' = user w ∧ isLoading w' = isLoading w ∧
  (∃ evs c1 rest, log w' = log w ++ evs ∧ react_events evs = [] ∧
     api_calls evs = c1 :: rest ∧
     method c1 = POST ∧ url c1 = u ∧ body c1 = b ∧ _retry c1 = false ∧
     Forall (λ c, url c = url c1 ∧ body c = body c1 ∧ _retry c = true) rest ∧
     (length rest ≤ 1)%nat) ∧
  (∀ d, r = Return d →
     ∃ sa sr, get_prop d "access_token" = Some (JsString sa) ∧
              get_prop d "refresh_token" = Some (JsString sr) ∧
              store w' !! ACCESS_TOKEN_KEY = Some sa ∧
              store w' !! REFRESH_TOKEN_KEY = Some sr).
Proof.
  unfold api_post. unfold mbind, M_bind at 1.
  set (config := {| method := POST; url := u; body := b; headers := ∅; _retry := false |}).
  destruct (api env (S (S n)) config w) as [w1 r1] eqn:E.
  destruct (api_calls_fields env n _ w w1 r1 E)
    as (Hr1 & Hu & Hl & evs & rest & Hlog & Hre & Hc & Hlen & Hrest).
  pose proof (outbound_fields env w config) as (Hm & Hurl & Hb).
  assert (Hcalls : ∀ ops, ∃ evs' c1 rest, log w1 ++ map Store ops = log w ++ evs' ∧
            react_events evs' = [] ∧ api_calls evs' = c1 :: rest ∧
            method c1 = POST ∧ url c1 = u ∧ body c1 = b ∧ _retry c1 = false ∧
            Forall (λ c, url c = url c1 ∧ body c = body c1 ∧ _retry c = true) rest ∧
     (length rest ≤ 1)%nat).
  { intros ops. exists (evs ++ map Store ops), (outbound env w config), rest.
    rewrite Hlog, app_assoc, react_events_app, api_calls_app, Hre, Hc.
    rewrite react_events_store, api_calls_store, outbound_retry, !app_nil_r.
    do 7 (split; [done|]). split; [|done].
    eapply Forall_impl; [exact Hrest|]. cbn. intros c (_ & -> & -> & -> & _).
    by rewrite Hurl, Hb. }
  assert (Hcalls0 : ∃ evs' c1 rest, log w1 = log w ++ evs' ∧
            react_events evs' = [] ∧ api_calls evs' = c1 :: rest ∧
            method c1 = POST ∧ url c1 = u ∧ body c1 = b ∧ _retry c1 = false ∧
            Forall (λ c, url c = url c1 ∧ body c = body c1 ∧ _retry c = true) rest ∧
     (length rest ≤ 1)%nat).
  { destruct (Hcalls []) as (evs' & c & rest' & H & ?). cbn in H. rewrite app_nil_r in H.
    eauto. }
  destruct r1 as [response|e|]; [| |done].
  - unfold prop. destruct (get_prop (data response) "access_token") as [a|] eqn:Ha.
    + unfold mbind, M_bind at 1. unfold mret, M_ret at 1.
      destruct (get_prop (data response) "refresh_token") as [rf|] eqn:Hrf.
      * unfold mbind, M_bind, mret, M_ret.
        destruct (TokenService.setTokens env a rf w1) as [w2 r2] eqn:Hset.
        destruct (quiet_setTokens env _ _ _ _ _ Hset) as (Hr2 & Hu2 & Hl2 & ops & Hlog2).
        destruct r2 as [[]|e|]; [| |done]; intros [= <- <-];
          (split; [done|]); (split; [congruence|]); (split; [congruence|]);
          (split; [rewrite Hlog2; apply Hcalls|]); [|done].
        intros d [= <-].
        destruct (setTokens_Return _ _ _ _ _ Hset) as (sa & sr & -> & -> & Hst & _).
        exists sa, sr. rewrite Hst.
        pose proof (lookup_stored (store w1) sa sr) as [? ?]. done.
      * unfold throw, mbind, M_bind. intros [= <- <-]. done.
    + unfold throw, mbind, M_bind. intros [= <- <-]. done.
  - intros [= <- <-]. done.
Qed.

(** X6.  [signup] of the session manager posts [{name, email, password}]
    to [/auth/signup] (once, plus at most the marked resubmission).  When
    the facade returns, both tokens of the payload are stored, the user is
    the payload's [user] and [setUser] is the last event; when it throws,
    the error reaches the caller as it is and the user is left as it
    was. *)
Theorem session_signup_spec n name email password w :
  let '(w1, r) := AuthAPI.signup env (S (S n)) name email password w in
  (∃ evs c1 rest, log w1 = log w ++ evs ∧ react_events evs = [] ∧
     api_calls evs = c1 :: rest ∧
     method c1 = POST ∧ url c1 = "/auth/signup" ∧
     body c1 = JsObject [("name", JsString name); ("email", JsString email);
                         ("password", JsString password)] ∧
     _retry c1 = false ∧
     Forall (λ c, url c = url c1 ∧ body c = body c1 ∧ _retry c = true) rest ∧
     (length rest ≤ 1)%nat) ∧
  match r with
  | Return d =>
      ∃ sa sr u w',
        get_prop d "access_token" = Some (JsString sa) ∧
        get_prop d "refresh_token" = Some (JsString sr) ∧
        get_prop d "user" = Some u ∧
        AuthContext.signup env (S (S n)) name email password w = (w', Return tt) ∧
        store w' !! ACCESS_TOKEN_KEY = Some sa ∧
        store w' !! REFRESH_TOKEN_KEY = Some sr ∧
        user w' = u ∧ AuthContext.isAuthenticated w' = truthy u ∧
        log w' = log w1 ++ [SetUser u]
  | Throw e =>
      AuthContext.signup env (S (S n)) name email password w = (w1, Throw e) ∧
      user w1 = user w
  | OutOfFuel => False
  end.
Proof.
  destruct (AuthAPI.signup env (S (S n)) name email password w) as [w1 r] eqn:E.
  destruct (store_pair_run n _ _ _ _ _ E) as (Hr & Hu & _ & Hcalls & Hd).
  split; [done|].
  assert (Hsignup : AuthContext.signup env (S (S n)) name email password w
            = match r with
              | Return d => (prop d "user" ≫= AuthContext.setUser) w1
              | Throw e => (w1, Throw e)
              | OutOfFuel => (w1, OutOfFuel)
              end).
  { unfold AuthContext.signup. unfold mbind, M_bind at 1. rewrite E. by destruct r. }
  rewrite Hsignup. clear Hsignup.
  destruct r as [d|e|]; [| |done].
  - destruct (Hd d eq_refl) as (sa & sr & Ha & Hrf & Hsa & Hsr).
    assert (Hobj : ∃ u, get_prop d "user" = Some u).
    { destruct d; cbn in Ha |- *; try done; eauto. }
    destruct Hobj as (u & Hu').
    exists sa, sr, u. eexists. unfold prop. rewrite Hu'.
    do 3 (split; [done|]). split; [reflexivity|]. cbn. done.
  - done.
Qed.

End Signup.

(** ** Only the two token keys *)

Lemma keeps_mret {A} (a : A) : keeps_other_keys (mret a).
Proof. by intros w w' r [= <- <-]. Qed.

Lemma keeps_throw {A} e : keeps_other_keys (@throw A e).
Proof. by intros w w' r [= <- <-]. Qed.

Lemma keeps_bind {A B} (m : M A) (f : A → M B) :
  keeps_other_keys m → (∀ a, keeps_other_keys (f a)) → keeps_other_keys (m ≫= f).
Proof.
  intros Hm Hf w w' r. unfold mbind, M_bind.
  destruct (m w) as [w1 [a| |]] eqn:E.
  - intros E2 key H1 H2. rewrite (Hf a _ _ _ E2 key H1 H2). by apply (Hm _ _ _ E).
  - intros [= <- <-]. by apply (Hm _ _ _ E).
  - intros [= <- <-]. by apply (Hm _ _ _ E).
Qed.

Lemma keeps_try_catch {A} (m : M A) (h : JsError → M A) :
  keeps_other_keys m → (∀ e, keeps_other_keys (h e)) → keeps_other_keys (try_catch m h).
Proof.
  intros Hm Hh w w' r. unfold try_catch.
  destruct (m w) as [w1 [a|e|]] eqn:E.
  - intros [= <- <-]. by apply (Hm _ _ _ E).
  - intros E2 key H1 H2. rewrite (Hh e _ _ _ E2 key H1 H2). by apply (Hm _ _ _ E).
  - intros [= <- <-]. by apply (Hm _ _ _ E).
Qed.

Lemma keeps_try_finally {A} (m : M A) (fin : M unit) :
  keeps_other_keys m → keeps_other_keys fin → keeps_other_keys (try_finally m fin).
Proof.
  intros Hm Hf w w' r. unfold try_finally.
  destruct (m w) as [w1 r1] eqn:E. destruct (fin w1) as [w2 r2] eqn:E2.
  assert (H : ∀ key, key ≠ ACCESS_TOKEN_KEY → key ≠ REFRESH_TOKEN_KEY →
                     store w2 !! key = store w !! key).
  { intros key H1 H2. rewrite (Hf _ _ _ E2 key H1 H2). by apply (Hm _ _ _ E). }
  destruct r1 as [a|e|]; [| |intros [= <- <-]; by apply (Hm _ _ _ E)];
    destruct r2 as [[]|e2|]; by intros [= <- <-].
Qed.

Lemma keeps_promise_then {A B} (p : M A) (f : A → M B) (g : JsError → M B) :
  keeps_other_keys p → (∀ a, keeps_other_keys (f a)) → (∀ e, keeps_other_keys (g e)) →
  keeps_other_keys (promise_then p f g).
Proof.
  intros Hp Hf Hg w w' r. unfold promise_then.
  destruct (p w) as [w1 [a|e|]] eqn:E.
  - intros E2 key H1 H2. rewrite (Hf a _ _ _ E2 key H1 H2). by apply (Hp _ _ _ E).
  - intros E2 key H1 H2. rewrite (Hg e _ _ _ E2 key H1 H2). by apply (Hp _ _ _ E).
  - intros [= <- <-]. by apply (Hp _ _ _ E).
Qed.

Section Keys.
Variable env : Env.

Lemma keeps_getItemAsync key : keeps_other_keys (SecureStore.getItemAsync env key).
Proof.
  intros w w' r. unfold SecureStore.getItemAsync.
  by destruct (storage_fault _ _ _); intros [= <- <-].
Qed.

Lemma keeps_setItemAsync key v :
  key = ACCESS_TOKEN_KEY ∨ key = REFRESH_TOKEN_KEY →
  keeps_other_keys (SecureStore.setItemAsync env key v).
Proof.
  intros Hk w w' r. unfold SecureStore.setItemAsync.
  destruct v as [| |s|]; try by intros [= <- <-].
  destruct (storage_fault _ _ _); intros [= <- <-]; [done|].
  intros k H1 H2. cbn. rewrite lookup_insert_ne; [done|]. by destruct Hk as [-> | ->].
Qed.

Lemma keeps_deleteItemAsync key :
  key = ACCESS_TOKEN_KEY ∨ key = REFRESH_TOKEN_KEY →
  keeps_other_keys (SecureStore.deleteItemAsync env key).
Proof.
  intros Hk w w' r. unfold SecureStore.deleteItemAsync.
  destruct (storage_fault _ _ _); intros [= <- <-]; [done|].
  intros k H1 H2. cbn. rewrite lookup_delete_ne; [done|]. by destruct Hk as [-> | ->].
Qed.

Lemma keeps_getAccessToken : keeps_other_keys (TokenService.getAccessToken env).
Proof. apply keeps_try_catch; [apply keeps_getItemAsync|]. intros _. apply keeps_mret. Qed.

Lemma keeps_getRefreshToken : keeps_other_keys (TokenService.getRefreshToken env).
Proof. apply keeps_try_catch; [apply keeps_getItemAsync|]. intros _. apply keeps_mret. Qed.

Lemma keeps_setTokens a b : keeps_other_keys (TokenService.setTokens env a b).
Proof.
  apply keeps_bind; [apply keeps_setItemAsync; by left|].
  intros _. apply keeps_setItemAsync. by right.
Qed.

Lemma keeps_clearTokens : keeps_other_keys (TokenService.clearTokens env).
Proof.
  apply keeps_bind; [apply keeps_deleteItemAsync; by left|].
  intros _. apply keeps_deleteItemAsync. by right.
Qed.

Lemma keeps_dispatch inst config : keeps_other_keys (dispatch env inst config).
Proof. by intros w w' r [= <- <-]. Qed.

Lemma keeps_prop v k : keeps_other_keys (prop v k).
Proof. unfold prop. destruct (get_prop v k); [apply keeps_mret|apply keeps_throw]. Qed.

Lemma keeps_request_interceptor config :
  keeps_other_keys (request_interceptor env config).
Proof.
  apply keeps_bind; [apply keeps_getAccessToken|].
  intros token. destruct (truthy token); apply keeps_mret.
Qed.

Lemma keeps_refresh_tokens originalRequest :
  keeps_other_keys (refresh_tokens env originalRequest).
Proof.
  apply keeps_bind; [apply keeps_getRefreshToken|].
  intros refreshToken. destruct (truthy refreshToken); [|apply keeps_mret].
  apply keeps_bind; [apply keeps_dispatch|]. intros response.
  apply keeps_bind; [apply keeps_prop|]. intros access_token.
  apply keeps_bind; [apply keeps_getRefreshToken|]. intros currentRefreshToken.
  apply keeps_bind; [apply keeps_setTokens|]. intros _. apply keeps_mret.
Qed.

Lemma keeps_response_rejected api error :
  (∀ config, keeps_other_keys (api config)) →
  keeps_other_keys (response_rejected env api error).
Proof.
  intros Hapi. unfold response_rejected.
  destruct error as [config response| |]; try apply keeps_throw.
  destruct (_ && _); [|apply keeps_throw].
  destruct config as [config|]; [|apply keeps_throw].
  apply keeps_bind.
  - apply keeps_try_catch; [apply keeps_refresh_tokens|].
    intros _. apply keeps_bind; [apply keeps_clearTokens|]. intros _. apply keeps_mret.
  - intros [request|]; [apply Hapi|apply keeps_throw].
Qed.

Lemma keeps_api fuel config : keeps_other_keys (api env fuel config).
Proof.
  revert config. induction fuel as [|fuel IH]; intros config.
  - by intros w w' r [= <- <-].
  - cbn [api]. apply keeps_bind; [apply keeps_request_interceptor|].
    intros config'. apply keeps_promise_then.
    + apply keeps_dispatch.
    + intros response. apply keeps_mret.
    + intros e. by apply keeps_response_rejected.
Qed.

Lemma keeps_setUser u : keeps_other_keys (AuthContext.setUser u).
Proof. by intros w w' r [= <- <-]. Qed.

Lemma keeps_setIsLoading b : keeps_other_keys (AuthContext.setIsLoading b).
Proof. by intros w w' r [= <- <-]. Qed.

Lemma keeps_getProfile fuel : keeps_other_keys (AuthAPI.getProfile env fuel).
Proof. apply keeps_bind; [apply keeps_api|]. intros response. apply keeps_mret. Qed.

Lemma keeps_store_pair (call : M AxiosResponse) :
  keeps_other_keys call →
  keeps_other_keys
    (response ← call;
     access_token ← prop (data response) "access_token";
     refresh_token ← prop (data response) "refresh_token";
     TokenService.setTokens env access_token refresh_token;;
     mret (data response)).
Proof.
  intros Hcall. apply keeps_bind; [done|]. intros response.
  apply keeps_bind; [apply keeps_prop|]. intros a.
  apply keeps_bind; [apply keeps_prop|]. intros b.
  apply keeps_bind; [apply keeps_setTokens|]. intros _. apply keeps_mret.
Qed.

Lemma keeps_set_user_of (call : M JsVal) :
  keeps_other_keys call →
  keeps_other_keys (response ← call; u ← prop response "user"; AuthContext.setUser u).
Proof.
  intros Hcall. apply keeps_bind; [done|]. intros response.
  apply keeps_bind; [apply keeps_prop|]. intros u. apply keeps_setUser.
Qed.

(** X5.  Whatever the store and the backend do, the session manager
    ([checkAuth], [login], [signup], [logout], [refreshUser]) and a call
    of [api] leave every key of the secure store other than the two token
    keys as it was. *)
Theorem session_touches_only_token_keys fuel :
  keeps_other_keys (AuthContext.checkAuth env fuel) ∧
  (∀ email password, keeps_other_keys (AuthContext.login env fuel email password)) ∧
  (∀ name email password,
     keeps_other_keys (AuthContext.signup env fuel name email password)) ∧
  keeps_other_keys (AuthContext.logout env fuel) ∧
  keeps_other_keys (AuthContext.refreshUser env fuel) ∧
  (∀ config, keeps_other_keys (api env fuel config)).
Proof.
  split_and!.
  - apply keeps_try_finally; [|apply keeps_setIsLoading].
    apply keeps_try_catch.
    + apply keeps_bind; [apply keeps_getAccessToken|].
      intros token. destruct (truthy token); [|apply keeps_mret].
      apply keeps_set_user_of, keeps_getProfile.
    + intros _. apply keeps_bind; [apply keeps_clearTokens|]. intros _. apply keeps_setUser.
  - intros email password. apply keeps_set_user_of, keeps_store_pair, keeps_api.
  - intros name email password. apply keeps_set_user_of, keeps_store_pair, keeps_api.
  - apply keeps_bind; [|intros _; apply keeps_setUser].
    apply keeps_try_finally; [|apply keeps_clearTokens].
    apply keeps_bind; [apply keeps_api|]. intros _. apply keeps_mret.
  - apply keeps_try_catch; [|intros _; apply keeps_setUser].
    apply keeps_set_user_of, keeps_getProfile.
  - apply keeps_api.
Qed.

End Keys.

Lemma session_touches_only_token_keys_witness :
  store (AuthContext.logout welcoming 2 with_theme).1 !! "theme" = Some "dark" ∧
  store (AuthContext.checkAuth refresh_rejected 2 with_theme).1 !! "theme" = Some "dark".
Proof.
  destruct (session_touches_only_token_keys welcoming 2) as (_ & _ & _ & Hlogout & _).
  destruct (session_touches_only_token_keys refresh_rejected 2) as (Hcheck & _).
  split.
  - rewrite (Hlogout with_theme (AuthContext.logout welcoming 2 with_theme).1
               (AuthContext.logout welcoming 2 with_theme).2);
      [reflexivity | by vm_compute | discriminate | discriminate].
  - rewrite (Hcheck with_theme (AuthContext.checkAuth refresh_rejected 2 with_theme).1
               (AuthContext.checkAuth refresh_rejected 2 with_theme).2);
      [reflexivity | by vm_compute | discriminate | discriminate].
Defined.

(** ** The startup check and the root layout *)

Section Startup.
Variable env : Env.

(** Where the user of the session can come from in a run of [checkAuth]. *)
Lemma checkAuth_user n w :
  let w1 := record_event (Store (GetItem ACCESS_TOKEN_KEY)) w in
  let '(w', r) := AuthContext.checkAuth env (S (S n)) w in
  isLoading w' = false ∧
  (user w' = user w ∨ user w' = JsNull ∨
   ∃ t d u, store w !! ACCESS_TOKEN_KEY = Some t ∧ t ≠ EmptyString ∧
            (AuthAPI.getProfile env (S (S n)) w1).2 = Return d ∧
            get_prop d "user" = Some u ∧ user w' = u).
Proof.
  cbn zeta. unfold AuthContext.checkAuth.
  set (body := token ← TokenService.getAccessToken env; _).
  set (handler := λ _ : JsError, _).
  set (origin := λ w3 : World,
         user w3 = user w ∨ user w3 = JsNull ∨
         ∃ t d u, store w !! ACCESS_TOKEN_KEY = Some t ∧ t ≠ EmptyString ∧
                  (AuthAPI.getProfile env (S (S n))
                     (record_event (Store (GetItem ACCESS_TOKEN_KEY)) w)).2 = Return d ∧
                  get_prop d "user" = Some u ∧ user w3 = u).
  assert (Hhandler : ∀ e (w0 w3 : World) r3, user w0 = user w →
            handler e w0 = (w3, r3) → r3 ≠ OutOfFuel ∧ origin w3).
  { intros e w0 w3 r3 Hu0. unfold handler, mbind, M_bind.
    destruct (TokenService.clearTokens env w0) as [w4 r4] eqn:Ec.
    destruct (quiet_clearTokens env _ _ _ Ec) as (Hr4 & Hu4 & _).
    destruct r4 as [[]|e4|]; [| |done]; intros [= <- <-]; (split; [done|]); unfold origin.
    - right. by left.
    - left. congruence. }
  assert (Hinner : ∀ w3 r3, try_catch body handler w = (w3, r3) →
            r3 ≠ OutOfFuel ∧ origin w3).
  { intros w3 r3. unfold try_catch, body. unfold mbind, M_bind at 1.
    rewrite getAccessToken_run.
    destruct (truthy (read_value env w ACCESS_TOKEN_KEY)) eqn:Ht.
    - destruct (read_value_truthy _ _ _ Ht) as (t & _ & Hne & _ & Hst).
      unfold mbind, M_bind at 1.
      destruct (AuthAPI.getProfile env (S (S n)) _) as [w2 r2] eqn:Ep.
      destruct (transport_getProfile env n _ _ _ Ep) as (Hr2 & Hu2 & _).
      destruct r2 as [d|e|]; [| |done].
      + unfold prop, mbind, M_bind. destruct (get_prop d "user") as [u|] eqn:Hd.
        * unfold mret, M_ret, AuthContext.setUser. intros [= <- <-].
          split; [done|]. unfold origin. right. right.
          exists t, d, u. done.
        * unfold throw. by apply Hhandler.
      + by apply Hhandler.
    - intros [= <- <-]. split; [done|]. by left. }
  unfold try_finally. destruct (try_catch body handler w) as [w3 r3] eqn:E.
  destruct (Hinner w3 r3 eq_refl) as (Hr3 & Ho).
  destruct r3 as [[]|e3|]; [| |done]; cbn; done.
Qed.

(** X8.  Starting without a user, [checkAuth] ends authenticated only if a
    non-empty access token was stored and the profile call returned a
    payload with a truthy [user], which is then the session's user. *)
Theorem checkAuth_needs_profile n w :
  user w = JsNull →
  AuthContext.isAuthenticated (AuthContext.checkAuth env (S (S n)) w).1 = true →
  ∃ t d u,
    store w !! ACCESS_TOKEN_KEY = Some t ∧ t ≠ EmptyString ∧
    (AuthAPI.getProfile env (S (S n))
       (record_event (Store (GetItem ACCESS_TOKEN_KEY)) w)).2 = Return d ∧
    get_prop d "user" = Some u ∧ truthy u = true ∧
    user (AuthContext.checkAuth env (S (S n)) w).1 = u.
Proof.
  intros Hnull. pose proof (checkAuth_user n w) as H. cbn zeta in H.
  destruct (AuthContext.checkAuth env (S (S n)) w) as [w' r]. cbn [fst].
  destruct H as (_ & [Hu | [Hu | (t & d & u & Hst & Hne & Hp & Hd & Hu)]]);
    unfold AuthContext.isAuthenticated.
  - rewrite Hu, Hnull. done.
  - rewrite Hu. done.
  - intros Ht. exists t, d, u. rewrite Hu in Ht. done.
Qed.

(** X10.  At start-up, outside the [(auth)] group: after [checkAuth] the
    guard sends the app to the login screen unless [checkAuth] ended
    authenticated, in which case it stays where it is. *)
Theorem startup_without_session_goes_to_login n w segments :
  user w = JsNull →
  RootLayout.inAuthGroup segments = false →
  RootLayout.RootLayoutNav (AuthContext.checkAuth env (S (S n)) w).1 segments
  = if AuthContext.isAuthenticated (AuthContext.checkAuth env (S (S n)) w).1
    then None else Some "/(auth)/login".
Proof.
  intros Hnull Hseg. pose proof (checkAuth_user n w) as H. cbn zeta in H.
  destruct (AuthContext.checkAuth env (S (S n)) w) as [w' r]. cbn [fst].
  destruct H as (Hl & _). unfold RootLayout.RootLayoutNav, RootLayout.redirect.
  rewrite Hl, Hseg. by destruct (AuthContext.isAuthenticated w').
Qed.

End Startup.

(** ** The guard of the root layout *)

(** X9.  The navigation guard of the root layout: it does nothing while
    the session is loading; once loaded it does nothing exactly when
    being authenticated and being outside the [(auth)] group coincide;
    and after a redirect the guard, run at the path it went to, does
    nothing: it cannot loop. *)
Theorem redirect_settles :
  (∀ isAuthenticated segments,
     RootLayout.redirect isAuthenticated true segments = None) ∧
  (∀ isAuthenticated segments,
     RootLayout.redirect isAuthenticated false segments = None
     ↔ isAuthenticated = negb (RootLayout.inAuthGroup segments)) ∧
  (∀ isAuthenticated isLoading segments path,
     RootLayout.redirect isAuthenticated isLoading segments = Some path →
     RootLayout.redirect isAuthenticated isLoading (RootLayout.useSegments path) = None).
Proof.
  split_and!.
  - done.
  - intros a segments. unfold RootLayout.redirect.
    destruct a, (RootLayout.inAuthGroup segments); cbn; split; done.
  - intros a l segments path. unfold RootLayout.redirect.
    destruct l; [done|].
    destruct a, (RootLayout.inAuthGroup segments); cbn; intros [= <-]; reflexivity.
Qed.

Lemma redirect_settles_witness :
  RootLayout.redirect false false ["(app)"; "dashboard"] = Some "/(auth)/login" ∧
  RootLayout.useSegments "/(auth)/login" = ["(auth)"; "login"] ∧
  RootLayout.redirect false false (RootLayout.useSegments "/(auth)/login") = None.
Proof.
  split; [reflexivity|]. split; [reflexivity|].
  destruct redirect_settles as (_ & _ & H).
  apply (H false false ["(app)"; "dashboard"]). reflexivity.
Defined.

Lemma checkAuth_needs_profile_witness :
  ∃ t d u,
    store cold_start !! ACCESS_TOKEN_KEY = Some t ∧ t ≠ EmptyString ∧
    (AuthAPI.getProfile welcoming 2
       (record_event (Store (GetItem ACCESS_TOKEN_KEY)) cold_start)).2 = Return d ∧
    get_prop d "user" = Some u ∧ truthy u = true ∧
    user (AuthContext.checkAuth welcoming 2 cold_start).1 = u.
Proof.
  apply (checkAuth_needs_profile welcoming 0 cold_start).
  - reflexivity.
  - vm_compute. reflexivity.
Defined.

Lemma startup_without_session_goes_to_login_witness :
  RootLayout.RootLayoutNav (AuthContext.checkAuth offline 2 initial_world).1
    ["(app)"; "dashboard"]
  = Some "/(auth)/login".
Proof.
  rewrite (startup_without_session_goes_to_login offline 0 initial_world
             ["(app)"; "dashboard"]).
  - vm_compute. reflexivity.
  - reflexivity.
  - reflexivity.
Defined.

(** ** Signing in from the login screen *)

(** X11.  On a screen of the [(auth)] group with the session loaded: after
    a [login] whose facade call returned, the guard goes to the dashboard
    when the payload's [user] is truthy (and stays put when it is not);
    after a [login] that threw, the guard does what it did before. *)
Theorem login_leads_to_dashboard env n email password w segments :
  isLoading w = false →
  RootLayout.inAuthGroup segments = true →
  let '(w1, r) := AuthAPI.login env (S (S n)) email password w in
  let w' := (AuthContext.login env (S (S n)) email password w).1 in
  match r with
  | Return d =>
      RootLayout.RootLayoutNav w' segments
      = if truthy (default JsUndefined (get_prop d "user"))
        then Some "/(app)/dashboard" else None
  | _ =>
      RootLayout.RootLayoutNav w' segments = RootLayout.RootLayoutNav w segments
  end.
Proof.
  intros Hl Hseg.
  destruct (AuthAPI.login env (S (S n)) email password w) as [w1 r] eqn:E.
  destruct (AuthAPI_login_run env n _ _ _ _ _ E) as (Hr & Hu & Hl1 & _ & Hd).
  assert (Hlogin : AuthContext.login env (S (S n)) email password w
            = match r with
              | Return d => (prop d "user" ≫= AuthContext.setUser) w1
              | Throw e => (w1, Throw e)
              | OutOfFuel => (w1, OutOfFuel)
              end).
  { unfold AuthContext.login. unfold mbind, M_bind at 1. rewrite E. by destruct r. }
  rewrite Hlogin. clear Hlogin.
  unfold RootLayout.RootLayoutNav, RootLayout.redirect, AuthContext.isAuthenticated.
  destruct r as [d|e|]; [| |done].
  - destruct (Hd d eq_refl) as (sa & sr & Ha & _).
    assert (Hobj : ∃ u, get_prop d "user" = Some u).
    { destruct d; cbn in Ha |- *; try done; eauto. }
    destruct Hobj as (u & Hu'). unfold prop, mbind, M_bind. rewrite Hu'.
    unfold mret, M_ret, AuthContext.setUser.
    cbn [fst user isLoading record_event with_user default].
    change (default JsUndefined (Some u)) with u.
    rewrite Hl1, Hl, Hseg. unfold id. by destruct (truthy u).
  - cbn [fst]. by rewrite Hu, Hl1.
Qed.

Lemma login_leads_to_dashboard_witness :
  RootLayout.RootLayoutNav
    (AuthContext.login welcoming 2 "u@x.com" "pw"
       (with_isLoading false initial_world)).1 ["(auth)"; "login"]
  = Some "/(app)/dashboard".
Proof.
  pose proof (login_leads_to_dashboard welcoming 0 "u@x.com" "pw"
                (with_isLoading false initial_world) ["(auth)"; "login"]
                eq_refl eq_refl) as H.
  assert (E : AuthAPI.login welcoming 2 "u@x.com" "pw" (with_isLoading false initial_world)
              = ((AuthAPI.login welcoming 2 "u@x.com" "pw"
                    (with_isLoading false initial_world)).1, Return login_payload))
    by (vm_compute; reflexivity).
  rewrite E in H. cbv zeta in H. rewrite H. reflexivity.
Defined.

(** ** What a call returns *)

Lemma settle_Return config reply response :
  settle config reply = Return response →
  reply = Reply (status response) (data response) ∧
  validateStatus (status response) = true.
Proof.
  destruct reply as [s d|]; cbn; [|done].
  destruct (validateStatus s) eqn:Hv; [|done]. by intros [= <-].
Qed.

(** X2.  A response that [api] returns was sent by the backend on the
    instance, with a status the client accepts (2xx), in answer to a request
    with the call's method, url and body: the client makes up no
    response. *)
Theorem api_returns_backend_reply env n config w w' response :
  api env (S (S n)) config w = (w', Return response) →
  ∃ l c, server env l ApiInstance c = Reply (status response) (data response) ∧
         validateStatus (status response) = true ∧
         method c = method config ∧ url c = url config ∧ body c = body config.
Proof.
  rewrite api_step. cbn zeta.
  pose proof (outbound_fields env w config) as (Hm & Hu & Hb).
  destruct (settle _ _) as [response0|e|] eqn:E.
  - intros [= <- <-]. destruct (settle_Return _ _ _ E) as (Hreply & Hv). eauto 10.
  - destruct (settle_Throw _ _ _ E) as (response0 & ->).
    destruct (eligible (outbound env w config) response0) eqn:Hel.
    + destruct (eligible_true _ _ Hel) as (r401 & -> & Hs & Hr).
      rewrite response_rejected_401 by done.
      destruct (try_catch _ _ _) as [w3 r3] eqn:Hstep.
      destruct (refresh_step_trace env _ _ _ _ Hstep)
        as (_ & _ & _ & _ & evs & _ & _ & Hreq).
      destruct r3 as [[request|]|e|]; try done.
      destruct (Hreq request eq_refl) as ((value & Heq) & _). clear Hreq. subst request.
      rewrite api_marked by done. cbn zeta. intros [= <- E2].
      destruct (settle_Return _ _ _ E2) as (Hreply & Hv).
      eexists _, _. split; [exact Hreply|]. split; [done|].
      pose proof (outbound_fields env w3
                    (set_header "Authorization" value (set_retry (outbound env w config))))
        as (-> & -> & ->). done.
    + by rewrite response_rejected_ineligible.
  - done.
Qed.

Lemma api_returns_backend_reply_witness :
  ∃ l c, server welcoming l ApiInstance c = Reply 200 login_payload ∧
         validateStatus 200 = true ∧
         method c = GET ∧ url c = "/dashboard" ∧ body c = JsUndefined.
Proof.
  apply (api_returns_backend_reply welcoming 0 dashboard_request signed_in
           (api welcoming 2 dashboard_request signed_in).1
           {| status := 200; data := login_payload |}).
  vm_compute. reflexivity.
Defined.

(** ** The stream request *)

(** X12.  [getStreamUrl] ends; its first request is a GET without body of
    [/video/<id>/stream?token=<playback token>], both values
    interpolated as they are, whose [Authorization] header is the bearer
    of the access token when one is readable and is absent otherwise.
    At most one more request follows: the marked resubmission of the same
    url. *)
Theorem getStreamUrl_request env n videoId playbackToken w :
  let token := read_value env w ACCESS_TOKEN_KEY in
  let '(w', r) := VideoAPI.getStreamUrl env (S (S n)) videoId playbackToken w in
  r ≠ OutOfFuel ∧
  ∃ evs c1 rest,
    log w' = log w ++ evs ∧ api_calls evs = c1 :: rest ∧
    method c1 = GET ∧
    url c1 = "/video/" +:+ to_string videoId +:+ "/stream?token="
             +:+ to_string playbackToken ∧
    body c1 = JsUndefined ∧
    headers c1 !! "Authorization"
    = (if truthy token then Some ("Bearer " +:+ to_string token) else None) ∧
    (length rest ≤ 1)%nat ∧
    Forall (λ c, method c = GET ∧ url c = url c1 ∧ body c = JsUndefined ∧
                 _retry c = true) rest.
Proof.
  cbn zeta. unfold VideoAPI.getStreamUrl, api_get. unfold mbind, M_bind.
  set (config := {| method := GET; url := _; body := JsUndefined;
                    headers := ∅; _retry := false |}).
  destruct (api env (S (S n)) config w) as [w1 r1] eqn:E.
  destruct (api_calls_fields env n config w w1 r1 E)
    as (Hr1 & _ & _ & evs & rest & Hlog & _ & Hc & Hlen & Hrest).
  pose proof (outbound_authorization env w config) as Hheaders.
  pose proof (outbound_fields env w config) as (Hm & Hu & Hb).
  assert (Hgoal :
            ∃ evs c1 rest, log w1 = log w ++ evs ∧ api_calls evs = c1 :: rest ∧
              method c1 = GET ∧ url c1 = url config ∧ body c1 = JsUndefined ∧
              headers c1 !! "Authorization"
              = (if truthy (read_value env w ACCESS_TOKEN_KEY)
                 then Some ("Bearer " +:+ to_string (read_value env w ACCESS_TOKEN_KEY))
                 else None) ∧
              (length rest ≤ 1)%nat ∧
              Forall (λ c, method c = GET ∧ url c = url c1 ∧ body c = JsUndefined ∧
                           _retry c = true) rest).
  { exists evs, (outbound env w config), rest.
    do 7 (split; [done|]).
    eapply Forall_impl; [exact Hrest|]. cbn. intros c (-> & -> & -> & -> & _).
    by rewrite Hu. }
  destruct r1 as [response|e|]; [| |done]; (split; [done|]); exact Hgoal.
Qed.

(** ** The screens *)

Section Screens.
Variable env : Env.
Variable trim : string → string.
Variable message : JsError → string.

Lemma login_settles n email password w :
  (AuthContext.login env (S (S n)) email password w).2 ≠ OutOfFuel.
Proof.
  unfold AuthContext.login. unfold mbind, M_bind at 1.
  destruct (AuthAPI.login env (S (S n)) email password w) as [w1 r1] eqn:E.
  destruct (AuthAPI_login_run env n _ _ _ _ _ E) as (Hr & _).
  destruct r1 as [d|e|]; [|done..].
  unfold prop, mbind, M_bind. by destruct (get_prop d "user").
Qed.

Lemma signup_settles n name email password w :
  (AuthContext.signup env (S (S n)) name email password w).2 ≠ OutOfFuel.
Proof.
  unfold AuthContext.signup. unfold mbind, M_bind at 1.
  destruct (AuthAPI.signup env (S (S n)) name email password w) as [w1 r1] eqn:E.
  destruct (store_pair_run env n _ _ _ _ _ E) as (Hr & _).
  destruct r1 as [d|e|]; [|done..].
  unfold prop, mbind, M_bind. by destruct (get_prop d "user").
Qed.

Lemma falsy_empty s : truthy (JsString s) = false ↔ s = EmptyString.
Proof.
  cbn. destruct (String.eqb_spec s EmptyString); split; try done.
Qed.

(** X13.  The login screen with an email that is blank once trimmed, or an
    empty password: one dialog titled [Error], and nothing else.  No
    request, no change of the session, the store or the loading flag. *)
Theorem handleLogin_incomplete fuel email password s :
  trim email = EmptyString ∨ password = EmptyString →
  ∃ text,
    LoginScreen.handleLogin env fuel trim message email password s
    = ({| UI.world := UI.world s; UI.screen := UI.screen s;
          UI.alerts := UI.alerts s ++ [("Error", JsString text)] |}, Return tt).
Proof.
  intros H. unfold LoginScreen.handleLogin.
  destruct (truthy (JsString (trim email))) eqn:He; cbn [negb]; [|by eexists].
  destruct H as [H | ->]; [|by eexists].
  apply falsy_empty in H. congruence.
Qed.

(** X14.  The login screen with a non-blank email and a password: the
    handler calls the session's [login] once, with the trimmed email and
    the password as typed, never throws, and ends with the loading flag
    off.  It shows no dialog when [login] returns, and one dialog [Login
    Failed] when it throws, with the backend's message if the reply has
    one and the error's own message otherwise. *)
Theorem handleLogin_settles n email password s :
  trim email ≠ EmptyString → password ≠ EmptyString →
  let '(w1, r1) :=
    AuthContext.login env (S (S n)) (trim email) password (UI.world s) in
  LoginScreen.handleLogin env (S (S n)) trim message email password s
  = ({| UI.world := w1;
        UI.screen := {| LoginScreen.isLoading := false |};
        UI.alerts := UI.alerts s ++
          match r1 with
          | Throw e => [("Login Failed", UI.errorMessage message e)]
          | _ => []
          end |}, Return tt).
Proof.
  intros He Hp. pose proof (login_settles n (trim email) password (UI.world s)) as Hs.
  destruct (AuthContext.login env (S (S n)) (trim email) password (UI.world s))
    as [w1 r1] eqn:E.
  unfold LoginScreen.handleLogin.
  rewrite !truthy_JsString by done. cbn [negb].
  unfold mbind, UI.Task_bind, LoginScreen.setIsLoading, UI.update,
    UI.try_finally, UI.try_catch, UI.lift, UI.alert.
  cbn [UI.world UI.screen UI.alerts]. rewrite E.
  destruct r1 as [[]|e|]; [| |done]; cbn; by rewrite ?app_nil_r.
Qed.

(** X15.  The signup screen with a name or an email that is blank once
    trimmed, an empty password, or a confirmation that differs from the
    password: one dialog titled [Error], and nothing else. *)
Theorem handleSignup_incomplete fuel name email password confirmPassword s :
  trim name = EmptyString ∨ trim email = EmptyString ∨ password = EmptyString ∨
  password ≠ confirmPassword →
  ∃ text,
    SignupScreen.handleSignup env fuel trim message name email password
      confirmPassword s
    = ({| UI.world := UI.world s; UI.screen := UI.screen s;
          UI.alerts := UI.alerts s ++ [("Error", JsString text)] |}, Return tt).
Proof.
  intros H. unfold SignupScreen.handleSignup.
  destruct (truthy (JsString (trim name))) eqn:Hn; cbn [negb]; [|by eexists].
  destruct (truthy (JsString (trim email))) eqn:He; cbn [negb]; [|by eexists].
  destruct (truthy (JsString password)) eqn:Hp; cbn [negb]; [|by eexists].
  destruct (String.eqb_spec password confirmPassword) as [Heq|Hne]; cbn [negb];
    [|by eexists].
  destruct H as [H | [H | [H | H]]]; try done; apply falsy_empty in H; congruence.
Qed.

(** X16.  The signup screen with valid fields and a matching confirmation:
    the handler calls the session's [signup] once with the trimmed name
    and email, never throws, ends with the loading flag off, and shows
    one dialog [Signup Failed] exactly when [signup] throws. *)
Theorem handleSignup_settles n name email password s :
  trim name ≠ EmptyString → trim email ≠ EmptyString → password ≠ EmptyString →
  let '(w1, r1) :=
    AuthContext.signup env (S (S n)) (trim name) (trim email) password (UI.world s) in
  SignupScreen.handleSignup env (S (S n)) trim message name email password password s
  = ({| UI.world := w1;
        UI.screen := {| SignupScreen.isLoading := false |};
        UI.alerts := UI.alerts s ++
          match r1 with
          | Throw e => [("Signup Failed", UI.errorMessage message e)]
          | _ => []
          end |}, Return tt).
Proof.
  intros Hn He Hp.
  pose proof (signup_settles n (trim name) (trim email) password (UI.world s)) as Hs.
  destruct (AuthContext.signup env (S (S n)) (trim name) (trim email) password (UI.world s))
    as [w1 r1] eqn:E.
  unfold SignupScreen.handleSignup.
  rewrite !truthy_JsString by done. rewrite String.eqb_refl. cbn [negb].
  unfold mbind, UI.Task_bind, SignupScreen.setIsLoading, UI.update,
    UI.try_finally, UI.try_catch, UI.lift, UI.alert.
  cbn [UI.world UI.screen UI.alerts]. rewrite E.
  destruct r1 as [[]|e|]; [| |done]; cbn; by rewrite ?app_nil_r.
Qed.

End Screens.

Section MoreScreens.
Variable env : Env.
Variable message : JsError → string.

Lemma getStreamUrl_settles n id playbackToken w :
  (VideoAPI.getStreamUrl env (S (S n)) id playbackToken w).2 ≠ OutOfFuel.
Proof.
  unfold VideoAPI.getStreamUrl, api_get. unfold mbind, M_bind.
  destruct (api env (S (S n)) _ w) as [w1 r1] eqn:E.
  destruct (transport_api env n _ _ _ _ E) as (Hr & _).
  by destruct r1.
Qed.

Lemma getDashboard_settles n w :
  (VideoAPI.getDashboard env (S (S n)) w).2 ≠ OutOfFuel.
Proof.
  unfold VideoAPI.getDashboard, api_get. unfold mbind, M_bind.
  destruct (api env (S (S n)) _ w) as [w1 r1] eqn:E.
  destruct (transport_api env n _ _ _ _ E) as (Hr & _).
  by destruct r1.
Qed.

Lemma fetchStreamUrl_run n id playbackToken s :
  truthy id = true → truthy playbackToken = true →
  let '(w1, r1) := VideoAPI.getStreamUrl env (S (S n)) id playbackToken (UI.world s) in
  VideoScreen.fetchStreamUrl env (S (S n)) message id playbackToken s
  = ({| UI.world := w1;
        UI.screen :=
          {| VideoScreen.streamData :=
               match r1 with
               | Return d => d
               | _ => VideoScreen.streamData (UI.screen s)
               end;
             VideoScreen.isLoading := false;
             VideoScreen.error :=
               match r1 with
               | Throw e => UI.errorMessage message e
               | _ => VideoScreen.error (UI.screen s)
               end |};
        UI.alerts := UI.alerts s |}, Return tt).
Proof.
  intros Hi Ht.
  pose proof (getStreamUrl_settles n id playbackToken (UI.world s)) as Hs.
  destruct (VideoAPI.getStreamUrl env (S (S n)) id playbackToken (UI.world s))
    as [w1 r1] eqn:E.
  unfold VideoScreen.fetchStreamUrl. rewrite Hi, Ht. cbn [negb orb].
  unfold mbind, UI.Task_bind, VideoScreen.setIsLoading, VideoScreen.setStreamData,
    VideoScreen.setError, UI.update, UI.try_finally, UI.try_catch, UI.lift.
  cbn [UI.world UI.screen UI.alerts]. rewrite E.
  by destruct r1 as [d|e|].
Qed.

(** X18.  The player without a video id or without a playback token: no
    request; the error is [Missing video information], loading ends,
    and the screen shows the error view. *)
Theorem fetchStreamUrl_missing fuel id playbackToken s :
  truthy id = false ∨ truthy playbackToken = false →
  let s' :=
    {| UI.world := UI.world s;
       UI.screen :=
         {| VideoScreen.streamData := VideoScreen.streamData (UI.screen s);
            VideoScreen.isLoading := false;
            VideoScreen.error := JsString "Missing video information" |};
       UI.alerts := UI.alerts s |} in
  VideoScreen.fetchStreamUrl env fuel message id playbackToken s = (s', Return tt) ∧
  VideoScreen.render (UI.screen s')
  = VideoScreen.UnableToPlay (JsString "Missing video information").
Proof.
  intros H. cbv zeta. split; [|done].
  unfold VideoScreen.fetchStreamUrl.
  assert (negb (truthy id) || negb (truthy playbackToken) = true) as ->.
  { destruct H as [-> | ->]; [done|]. by rewrite orb_true_r. }
  done.
Qed.

(** X19.  [fetchStreamUrl] never throws, shows no dialog and always ends
    loading, so the screen leaves the loading view; one run changes the
    stream data or the error, never both. *)
Theorem fetchStreamUrl_settles n id playbackToken s :
  let '(s', r) :=
    VideoScreen.fetchStreamUrl env (S (S n)) message id playbackToken s in
  r = Return tt ∧
  VideoScreen.isLoading (UI.screen s') = false ∧
  VideoScreen.render (UI.screen s') ≠ VideoScreen.Loading ∧
  UI.alerts s' = UI.alerts s ∧
  (VideoScreen.error (UI.screen s') = VideoScreen.error (UI.screen s) ∨
   VideoScreen.streamData (UI.screen s') = VideoScreen.streamData (UI.screen s)).
Proof.
  destruct (negb (truthy id) || negb (truthy playbackToken)) eqn:Hm.
  - unfold VideoScreen.fetchStreamUrl. rewrite Hm. cbn. split_and!; try done. by right.
  - apply orb_false_elim in Hm as [Hi Ht].
    apply negb_false_iff in Hi, Ht.
    pose proof (fetchStreamUrl_run n id playbackToken s Hi Ht) as H.
    destruct (VideoAPI.getStreamUrl env (S (S n)) id playbackToken (UI.world s))
      as [w1 r1].
    rewrite H. unfold VideoScreen.render. cbn.
    split_and!; try done.
    + by destruct (_ || _).
    + destruct r1; [by left|by right|by left].
Qed.

(** X20.  [fetchStreamUrl] never resets the error.  With an error on
    screen, a fetch that succeeds stores the stream data and still
    renders the error view with the old message: a Try Again that
    succeeds still shows the error. *)
Theorem retry_keeps_error n id playbackToken s w1 d :
  truthy id = true → truthy playbackToken = true →
  truthy (VideoScreen.error (UI.screen s)) = true →
  VideoAPI.getStreamUrl env (S (S n)) id playbackToken (UI.world s) = (w1, Return d) →
  ∃ s',
    VideoScreen.fetchStreamUrl env (S (S n)) message id playbackToken s
    = (s', Return tt) ∧
    VideoScreen.streamData (UI.screen s') = d ∧
    VideoScreen.error (UI.screen s') = VideoScreen.error (UI.screen s) ∧
    VideoScreen.render (UI.screen s')
    = VideoScreen.UnableToPlay (VideoScreen.error (UI.screen s)).
Proof.
  intros Hi Ht He E.
  pose proof (fetchStreamUrl_run n id playbackToken s Hi Ht) as H.
  rewrite E in H. eexists. split; [exact H|].
  cbn. split_and!; try done.
  unfold VideoScreen.render, js_or. cbn. by rewrite He.
Qed.

(** X21.  Leaving the player reports the watch exactly when there is a
    video id and at least six full seconds have passed since the screen
    was mounted: the floor of the seconds must exceed five. *)
Theorem tracks_on_unmount_threshold id start now :
  VideoScreen.tracks_on_unmount id start now = true
  ↔ truthy id = true ∧ 6000 ≤ now - start.
Proof.
  unfold VideoScreen.tracks_on_unmount, VideoScreen.watchDuration.
  rewrite andb_true_iff, Z.ltb_lt.
  split; intros [? H]; (split; [done|]).
  - destruct (Z_lt_le_dec (now - start) 6000) as [Hlt|]; [|done].
    assert ((now - start) / 1000 < 6) by (apply Z.div_lt_upper_bound; lia). lia.
  - assert (6 ≤ (now - start) / 1000) by (apply Z.div_le_lower_bound; lia). lia.
Qed.

(** X22.  [fetchVideos] never throws and always ends with both the loading
    and the refreshing flag off.  On a reply with a body the list becomes
    its [videos] and no dialog is shown; on an error, or a reply without
    a body, the list is left as it was and one dialog [Error] is
    shown. *)
Theorem fetchVideos_settles n showRefreshIndicator s :
  let '(w1, r1) := VideoAPI.getDashboard env (S (S n)) (UI.world s) in
  let '(s', r) :=
    DashboardScreen.fetchVideos env (S (S n)) message showRefreshIndicator s in
  r = Return tt ∧
  UI.world s' = w1 ∧
  DashboardScreen.isLoading (UI.screen s') = false ∧
  DashboardScreen.isRefreshing (UI.screen s') = false ∧
  match r1 with
  | Return d =>
      match get_prop d "videos" with
      | Some v =>
          DashboardScreen.videos (UI.screen s') = v ∧ UI.alerts s' = UI.alerts s
      | None =>
          DashboardScreen.videos (UI.screen s') = DashboardScreen.videos (UI.screen s) ∧
          UI.alerts s' = UI.alerts s ++ [("Error", UI.errorMessage message TypeError)]
      end
  | Throw e =>
      DashboardScreen.videos (UI.screen s') = DashboardScreen.videos (UI.screen s) ∧
      UI.alerts s' = UI.alerts s ++ [("Error", UI.errorMessage message e)]
  | OutOfFuel => False
  end.
Proof.
  pose proof (getDashboard_settles n (UI.world s)) as Hs.
  destruct (VideoAPI.getDashboard env (S (S n)) (UI.world s)) as [w1 r1] eqn:E.
  unfold DashboardScreen.fetchVideos.
  unfold mbind, UI.Task_bind, DashboardScreen.setIsLoading,
    DashboardScreen.setIsRefreshing, DashboardScreen.setVideos, UI.update,
    UI.try_finally, UI.try_catch, UI.lift, UI.alert, UI.prop, mret, UI.Task_ret.
  destruct showRefreshIndicator; cbn [UI.world UI.screen UI.alerts]; rewrite E;
    (destruct r1 as [d|e|]; [| |done]); try (destruct (get_prop d "videos")); cbn; done.
Qed.

(** X17.  Pressing Sign Out on the settings screen never throws and leaves
    [isLoading] alone.  If the remote call and the clearing both return,
    the user is [null] and no dialog is shown.  Otherwise the dialog
    asks to try again and the user stays signed in, although, whenever
    the clearing returned, both tokens are already gone. *)
Theorem sign_out_press n s :
  let '(w1, r1) := api_post env (S (S n)) "/auth/logout" JsUndefined (UI.world s) in
  let '(w2, r2) := TokenService.clearTokens env w1 in
  let '(s', r) := SettingsScreen.onPress env (S (S n)) s in
  r = Return tt ∧
  isLoading (UI.world s') = isLoading (UI.world s) ∧
  (r2 = Return tt →
   store (UI.world s') !! ACCESS_TOKEN_KEY = None ∧
   store (UI.world s') !! REFRESH_TOKEN_KEY = None) ∧
  match r1, r2 with
  | Return _, Return _ =>
      UI.alerts s' = UI.alerts s ∧ user (UI.world s') = JsNull
  | _, _ =>
      UI.alerts s'
      = UI.alerts s ++ [("Error", JsString "Failed to sign out. Please try again.")] ∧
      user (UI.world s') = user (UI.world s)
  end.
Proof.
  unfold SettingsScreen.onPress, UI.try_catch, UI.lift, UI.alert,
    AuthContext.logout, AuthAPI.logout.
  destruct (api_post env (S (S n)) "/auth/logout" JsUndefined (UI.world s))
    as [w1 r1] eqn:E.
  destruct (transport_api env n _ _ _ _ E) as (Hr1 & Hu & Hl & _).
  destruct (TokenService.clearTokens env w1) as [w2 r2] eqn:Ec.
  destruct (quiet_clearTokens env _ _ _ Ec) as (Hr2 & Hu2 & Hl2 & _).
  unfold mbind, M_bind, try_finally, mret, M_ret. rewrite E.
  destruct r2 as [[]|e2|]; [| |done].
  - destruct (clearTokens_Return _ _ _ Ec) as (Hst & _).
    pose proof (lookup_cleared (store w1)) as [? ?].
    destruct r1 as [response|e|]; [| |done]; rewrite Ec; cbn; rewrite ?Hst;
      split_and!; try done; congruence.
  - destruct r1 as [response|e|]; [| |done]; rewrite Ec; cbn;
      split_and!; try done; congruence.
Qed.

End MoreScreens.

Lemma handleLogin_incomplete_witness :
  trim_spaces "   " = EmptyString ∧
  ∃ text,
    LoginScreen.handleLogin welcoming 2 trim_spaces axios_message "   " "secret"
      {| UI.world := signed_out;
         UI.screen := {| LoginScreen.isLoading := false |};
         UI.alerts := [] |}
    = ({| UI.world := signed_out;
          UI.screen := {| LoginScreen.isLoading := false |};
          UI.alerts := [("Error", JsString text)] |}, Return tt).
Proof.
  split; [reflexivity|].
  apply (handleLogin_incomplete welcoming trim_spaces axios_message 2 "   " "secret"
           {| UI.world := signed_out;
              UI.screen := {| LoginScreen.isLoading := false |};
              UI.alerts := [] |}).
  left. reflexivity.
Defined.

Lemma handleLogin_settles_witness :
  trim_spaces " u@x.com " = "u@x.com" ∧
  (LoginScreen.handleLogin invalid_credentials 2 trim_spaces axios_message
     " u@x.com " "guess"
     {| UI.world := signed_out;
        UI.screen := {| LoginScreen.isLoading := false |};
        UI.alerts := [] |}).1
  = {| UI.world :=
         (AuthContext.login invalid_credentials 2 "u@x.com" "guess" signed_out).1;
       UI.screen := {| LoginScreen.isLoading := false |};
       UI.alerts := [("Login Failed", JsString "Invalid email or password")] |}.
Proof.
  split; [reflexivity|].
  pose proof (handleLogin_settles invalid_credentials trim_spaces axios_message 0
                " u@x.com " "guess"
                {| UI.world := signed_out;
                   UI.screen := {| LoginScreen.isLoading := false |};
                   UI.alerts := [] |}) as H.
  cbn [UI.world] in H.
  destruct (AuthContext.login invalid_credentials 2 (trim_spaces " u@x.com ") "guess"
              signed_out) as [w1 r1] eqn:E.
  rewrite H; [|vm_compute; discriminate|discriminate].
  assert (Hr : r1 = (AuthContext.login invalid_credentials 2 "u@x.com" "guess"
                       signed_out).2) by (change "u@x.com" with (trim_spaces " u@x.com "); by rewrite E).
  assert (Hw : w1 = (AuthContext.login invalid_credentials 2 "u@x.com" "guess"
                       signed_out).1) by (change "u@x.com" with (trim_spaces " u@x.com "); by rewrite E).
  rewrite Hr, Hw. vm_compute. reflexivity.
Defined.

Lemma handleSignup_incomplete_witness :
  ∃ text,
    SignupScreen.handleSignup welcoming 2 trim_spaces axios_message
      "Ann" "u@x.com" "secret" "secrte"
      {| UI.world := signed_out;
         UI.screen := {| SignupScreen.isLoading := false |};
         UI.alerts := [] |}
    = ({| UI.world := signed_out;
          UI.screen := {| SignupScreen.isLoading := false |};
          UI.alerts := [("Error", JsString text)] |}, Return tt).
Proof.
  apply (handleSignup_incomplete welcoming trim_spaces axios_message 2
           "Ann" "u@x.com" "secret" "secrte"
           {| UI.world := signed_out;
              UI.screen := {| SignupScreen.isLoading := false |};
              UI.alerts := [] |}).
  right. right. right. discriminate.
Defined.

Lemma handleSignup_settles_witness :
  let s := {| UI.world := signed_out;
              UI.screen := {| SignupScreen.isLoading := false |};
              UI.alerts := [] |} in
  let s' := (SignupScreen.handleSignup welcoming 2 trim_spaces axios_message
               " Ann" "u@x.com " "secret" "secret" s).1 in
  UI.alerts s' = [] ∧
  UI.screen s' = {| SignupScreen.isLoading := false |} ∧
  user (UI.world s') = user signed_in ∧
  store (UI.world s') !! ACCESS_TOKEN_KEY = Some "A1".
Proof.
  cbv zeta.
  pose proof (handleSignup_settles welcoming trim_spaces axios_message 0
                " Ann" "u@x.com " "secret"
                {| UI.world := signed_out;
                   UI.screen := {| SignupScreen.isLoading := false |};
                   UI.alerts := [] |}) as H.
  cbn [UI.world] in H.
  destruct (AuthContext.signup welcoming 2 (trim_spaces " Ann") (trim_spaces "u@x.com ")
              "secret" signed_out) as [w1 r1] eqn:E.
  rewrite H; [|vm_compute; discriminate|vm_compute; discriminate|discriminate].
  assert (Hr : r1 = (AuthContext.signup welcoming 2 (trim_spaces " Ann")
                       (trim_spaces "u@x.com ") "secret" signed_out).2) by (by rewrite E).
  assert (Hw : w1 = (AuthContext.signup welcoming 2 (trim_spaces " Ann")
                       (trim_spaces "u@x.com ") "secret" signed_out).1) by (by rewrite E).
  rewrite Hr, Hw. vm_compute. split_and!; reflexivity.
Defined.

Lemma fetchStreamUrl_missing_witness :
  let s := {| UI.world := signed_in; UI.screen := VideoScreen.initial;
              UI.alerts := [] |} in
  let s' := (VideoScreen.fetchStreamUrl offline 2 axios_message
               (JsString "v1") JsUndefined s).1 in
  UI.world s' = signed_in ∧
  VideoScreen.render (UI.screen s')
  = VideoScreen.UnableToPlay (JsString "Missing video information").
Proof.
  cbv zeta.
  destruct (fetchStreamUrl_missing offline axios_message 2 (JsString "v1") JsUndefined
              {| UI.world := signed_in; UI.screen := VideoScreen.initial;
                 UI.alerts := [] |}) as [H1 H2].
  - right. reflexivity.
  - rewrite H1. split; [reflexivity|exact H2].
Defined.

Lemma retry_keeps_error_witness :
  let s := {| UI.world := signed_in;
              UI.screen := {| VideoScreen.streamData := JsNull;
                              VideoScreen.isLoading := false;
                              VideoScreen.error := JsString "Network Error" |};
              UI.alerts := [] |} in
  (VideoAPI.getStreamUrl welcoming 2 (JsString "v1") (JsString "p1") signed_in).2
  = Return login_payload ∧
  ∃ s',
    VideoScreen.fetchStreamUrl welcoming 2 axios_message
      (JsString "v1") (JsString "p1") s = (s', Return tt) ∧
    VideoScreen.streamData (UI.screen s') = login_payload ∧
    VideoScreen.error (UI.screen s') = JsString "Network Error" ∧
    VideoScreen.render (UI.screen s')
    = VideoScreen.UnableToPlay (JsString "Network Error").
Proof.
  cbv zeta. split; [vm_compute; reflexivity|].
  apply (retry_keeps_error welcoming axios_message 0 (JsString "v1") (JsString "p1")
           {| UI.world := signed_in;
              UI.screen := {| VideoScreen.streamData := JsNull;
                              VideoScreen.isLoading := false;
                              VideoScreen.error := JsString "Network Error" |};
              UI.alerts := [] |}
           (VideoAPI.getStreamUrl welcoming 2 (JsString "v1") (JsString "p1") signed_in).1
           login_payload);
    [reflexivity|reflexivity|reflexivity|vm_compute; reflexivity].
Defined.

(** ** The startup check *)

Section StartupCheck.
Variable env : Env.

(** The [catch] of [checkAuth], by what the store does to the two
    deletions. *)
Lemma checkAuth_handler_run w0 :
  let handler : M unit := TokenService.clearTokens env;; AuthContext.setUser JsNull in
  let '(w3, r3) := handler w0 in
  if storage_fault env (log w0) (DeleteItem ACCESS_TOKEN_KEY) then
    r3 = Throw SecureStoreError ∧ user w3 = user w0 ∧ isLoading w3 = isLoading w0 ∧
    store w3 = store w0 ∧
    log w3 = log w0 ++ [Store (DeleteItem ACCESS_TOKEN_KEY)]
  else if storage_fault env (log w0 ++ [Store (DeleteItem ACCESS_TOKEN_KEY)])
            (DeleteItem REFRESH_TOKEN_KEY) then
    r3 = Throw SecureStoreError ∧ user w3 = user w0 ∧ isLoading w3 = isLoading w0 ∧
    store w3 = delete ACCESS_TOKEN_KEY (store w0) ∧
    log w3 = log w0 ++ [Store (DeleteItem ACCESS_TOKEN_KEY);
                        Store (DeleteItem REFRESH_TOKEN_KEY)]
  else
    r3 = Return tt ∧ user w3 = JsNull ∧ isLoading w3 = isLoading w0 ∧
    store w3 = delete REFRESH_TOKEN_KEY (delete ACCESS_TOKEN_KEY (store w0)) ∧
    log w3 = log w0 ++ [Store (DeleteItem ACCESS_TOKEN_KEY);
                        Store (DeleteItem REFRESH_TOKEN_KEY); SetUser JsNull].
Proof.
  cbn zeta. unfold TokenService.clearTokens, SecureStore.deleteItemAsync,
    AuthContext.setUser, mbind, M_bind.
  destruct (storage_fault env (log w0) (DeleteItem ACCESS_TOKEN_KEY)); [done|].
  cbn [log record_event with_store].
  destruct (storage_fault env _ (DeleteItem REFRESH_TOKEN_KEY)); cbn;
    rewrite <- ?app_assoc; done.
Qed.

(** C7, amended.  [checkAuth] ends, with [isLoading] false and exactly one
    call of [setIsLoading], with [false], as its last step, in every
    case.  Without a token (none stored, an empty one, or a failed read)
    nothing is fetched and the user and the store stay as they were.
    With a token the profile is fetched by a GET of [/auth/me] on the
    instance, carrying the bearer the outbound hook reads (followed by at
    most its marked resubmission).  On success the user is the
    payload's [user].  On any failure the two deletions of [clearTokens]
    are attempted: when both succeed neither token is stored, the user is
    [null] and the check returns; when a deletion throws, the check
    rejects with the storage error, the user is left as it was and the
    tokens not yet deleted stay stored. *)
Theorem checkAuth_spec n w :
  let token := read_value env w ACCESS_TOKEN_KEY in
  let w1 := record_event (Store (GetItem ACCESS_TOKEN_KEY)) w in
  let '(w', r) := AuthContext.checkAuth env (S (S n)) w in
  let failed (w2 : World) :=
    if storage_fault env (log w2) (DeleteItem ACCESS_TOKEN_KEY) then
      r = Throw SecureStoreError ∧ user w' = user w ∧ store w' = store w2 ∧
      log w' = log w2 ++ [Store (DeleteItem ACCESS_TOKEN_KEY); SetIsLoading false]
    else if storage_fault env (log w2 ++ [Store (DeleteItem ACCESS_TOKEN_KEY)])
              (DeleteItem REFRESH_TOKEN_KEY) then
      r = Throw SecureStoreError ∧ user w' = user w ∧
      store w' = delete ACCESS_TOKEN_KEY (store w2) ∧
      log w' = log w2 ++ [Store (DeleteItem ACCESS_TOKEN_KEY);
                          Store (DeleteItem REFRESH_TOKEN_KEY); SetIsLoading false]
    else
      r = Return tt ∧ user w' = JsNull ∧
      store w' !! ACCESS_TOKEN_KEY = None ∧ store w' !! REFRESH_TOKEN_KEY = None ∧
      store w' = delete REFRESH_TOKEN_KEY (delete ACCESS_TOKEN_KEY (store w2)) ∧
      log w' = log w2 ++ [Store (DeleteItem ACCESS_TOKEN_KEY);
                          Store (DeleteItem REFRESH_TOKEN_KEY);
                          SetUser JsNull; SetIsLoading false] in
  r ≠ OutOfFuel ∧ isLoading w' = false ∧
  (∃ evs, log w' = log w ++ evs ∧ loading_updates evs = [false]) ∧
  if truthy token then
    let '(w2, r2) := api_get env (S (S n)) "/auth/me" w1 in
    (∃ evs c1 rest,
       log w2 = log w1 ++ evs ∧ react_events evs = [] ∧
       api_calls evs = c1 :: rest ∧
       method c1 = GET ∧ url c1 = "/auth/me" ∧ body c1 = JsUndefined ∧
       headers c1 !! "Authorization"
       = (if truthy (read_value env w1 ACCESS_TOKEN_KEY)
          then Some ("Bearer " +:+ to_string (read_value env w1 ACCESS_TOKEN_KEY))
          else None) ∧
       (length rest ≤ 1)%nat ∧
       Forall (λ c, method c = GET ∧ url c = "/auth/me" ∧ _retry c = true) rest) ∧
    match r2 with
    | Return response =>
        match get_prop (data response) "user" with
        | Some u =>
            r = Return tt ∧ user w' = u ∧ store w' = store w2 ∧
            log w' = log w2 ++ [SetUser u; SetIsLoading false]
        | None => failed w2
        end
    | Throw _ => failed w2
    | OutOfFuel => False
    end
  else
    r = Return tt ∧ user w' = user w ∧ store w' = store w ∧
    log w' = log w ++ [Store (GetItem ACCESS_TOKEN_KEY); SetIsLoading false].
Proof.
  cbn zeta. unfold AuthContext.checkAuth.
  set (task := token ← TokenService.getAccessToken env; _).
  set (handler := λ _ : JsError, _).
  assert (Hkeep : keeps_loading (try_catch task handler)).
  { apply keeps_loading_try_catch.
    - apply keeps_loading_bind.
      + apply transport_keeps_loading, quiet_transport, quiet_try_catch.
        * apply quiet_getItemAsync.
        * intros _. apply quiet_mret.
      + intros token. destruct (truthy token); [|apply keeps_loading_mret].
        apply keeps_loading_bind; [apply transport_keeps_loading, transport_getProfile|].
        intros response. apply keeps_loading_bind; [|apply keeps_loading_setUser].
        apply transport_keeps_loading, quiet_transport, quiet_prop.
    - intros e. unfold handler.
      apply keeps_loading_bind; [|intros _; apply keeps_loading_setUser].
      apply transport_keeps_loading, quiet_transport, quiet_clearTokens. }
  assert (Hfailed : ∀ e0 w0 w3 r3,
            user w0 = user w → handler e0 w0 = (w3, r3) →
            let w' := record_event (SetIsLoading false) (with_isLoading false w3) in
            if storage_fault env (log w0) (DeleteItem ACCESS_TOKEN_KEY) then
              r3 = Throw SecureStoreError ∧ user w' = user w ∧ store w' = store w0 ∧
              log w' = log w0 ++ [Store (DeleteItem ACCESS_TOKEN_KEY); SetIsLoading false]
            else if storage_fault env (log w0 ++ [Store (DeleteItem ACCESS_TOKEN_KEY)])
                      (DeleteItem REFRESH_TOKEN_KEY) then
              r3 = Throw SecureStoreError ∧ user w' = user w ∧
              store w' = delete ACCESS_TOKEN_KEY (store w0) ∧
              log w' = log w0 ++ [Store (DeleteItem ACCESS_TOKEN_KEY);
                                  Store (DeleteItem REFRESH_TOKEN_KEY); SetIsLoading false]
            else
              r3 = Return tt ∧ user w' = JsNull ∧
              store w' !! ACCESS_TOKEN_KEY = None ∧ store w' !! REFRESH_TOKEN_KEY = None ∧
              store w' = delete REFRESH_TOKEN_KEY (delete ACCESS_TOKEN_KEY (store w0)) ∧
              log w' = log w0 ++ [Store (DeleteItem ACCESS_TOKEN_KEY);
                                  Store (DeleteItem REFRESH_TOKEN_KEY);
                                  SetUser JsNull; SetIsLoading false]).
  { intros e0 w0 w3 r3 Hu0 E. pose proof (checkAuth_handler_run w0) as H.
    cbn zeta in H. unfold handler in E. rewrite E in H. cbn zeta.
    cbn [user store log record_event with_isLoading].
    destruct (storage_fault env (log w0) (DeleteItem ACCESS_TOKEN_KEY)).
    { destruct H as (-> & -> & _ & -> & ->). by rewrite <- app_assoc. }
    destruct (storage_fault env _ (DeleteItem REFRESH_TOKEN_KEY)).
    { destruct H as (-> & -> & _ & -> & ->). by rewrite <- app_assoc. }
    destruct H as (-> & -> & _ & -> & ->).
    pose proof (lookup_cleared (store w0)) as [? ?].
    by rewrite <- app_assoc. }
  unfold try_finally.
  destruct (try_catch task handler w) as [w3 r3] eqn:E.
  destruct (Hkeep _ _ _ E) as (Hr3 & evs & Hlog & Hload).
  assert (Hfin : ∃ evs', log (record_event (SetIsLoading false) (with_isLoading false w3))
                         = log w ++ evs' ∧ loading_updates evs' = [false]).
  { exists (evs ++ [SetIsLoading false]). cbn.
    rewrite Hlog, loading_updates_app, Hload, app_assoc. done. }
  assert (E' := E). unfold try_catch, task in E'. unfold mbind, M_bind at 1 in E'.
  rewrite getAccessToken_run in E'.
  destruct (truthy (read_value env w ACCESS_TOKEN_KEY)) eqn:Ht.
  - unfold mbind, M_bind at 1 in E'.
    unfold AuthAPI.getProfile in E'. unfold mbind, M_bind at 1 in E'.
    unfold api_get in *.
    set (config := {| method := GET; url := "/auth/me"; body := JsUndefined;
                      headers := ∅; _retry := false |}) in *.
    destruct (api env (S (S n)) config _) as [w2 r2] eqn:Ep.
    destruct (api_calls_fields env n config _ w2 r2 Ep)
      as (Hr2 & Hu2 & _ & evs2 & rest & Hlog2 & Hre2 & Hc2 & Hlen & Hrest).
    pose proof (outbound_fields env (record_event (Store (GetItem ACCESS_TOKEN_KEY)) w)
                  config) as (Hm & Hurl & Hb).
    assert (Hreq : ∃ evs c1 rest,
              log w2 = log (record_event (Store (GetItem ACCESS_TOKEN_KEY)) w) ++ evs ∧
              react_events evs = [] ∧ api_calls evs = c1 :: rest ∧
              method c1 = GET ∧ url c1 = "/auth/me" ∧ body c1 = JsUndefined ∧
              headers c1 !! "Authorization"
              = (if truthy (read_value env (record_event (Store (GetItem ACCESS_TOKEN_KEY)) w)
                              ACCESS_TOKEN_KEY)
                 then Some ("Bearer " +:+
                            to_string (read_value env
                                         (record_event (Store (GetItem ACCESS_TOKEN_KEY)) w)
                                         ACCESS_TOKEN_KEY))
                 else None) ∧
              (length rest ≤ 1)%nat ∧
              Forall (λ c, method c = GET ∧ url c = "/auth/me" ∧ _retry c = true) rest).
    { exists evs2, (outbound env (record_event (Store (GetItem ACCESS_TOKEN_KEY)) w) config),
        rest.
      do 6 (split; [done|]). split; [by rewrite outbound_authorization|].
      split; [done|]. eapply Forall_impl; [exact Hrest|].
      cbn. by intros c (-> & -> & _ & -> & _). }
    destruct r2 as [response|e|]; [| |done].
    + cbn [mret M_ret] in E'.
      unfold prop, mbind, M_bind in E'.
      destruct (get_prop (data response) "user") as [u|].
      * cbn in E'. injection E' as <- <-.
        split; [done|]. split; [done|]. split; [exact Hfin|]. split; [exact Hreq|].
        cbn. rewrite <- app_assoc. done.
      * unfold throw in E'.
        pose proof (Hfailed TypeError w2 w3 r3 Hu2 E') as Hf. cbn zeta in Hf.
        destruct r3 as [[]|e3|]; [| |done];
          (split; [done|]); (split; [done|]); (split; [exact Hfin|]);
          (split; [exact Hreq|]); exact Hf.
    + pose proof (Hfailed e w2 w3 r3 Hu2 E') as Hf. cbn zeta in Hf.
      destruct r3 as [[]|e3|]; [| |done];
        (split; [done|]); (split; [done|]); (split; [exact Hfin|]);
        (split; [exact Hreq|]); exact Hf.
  - injection E' as <- <-. cbn. rewrite <- app_assoc.
    split; [done|]. split; [done|]. split; [|done].
    by exists [Store (GetItem ACCESS_TOKEN_KEY); SetIsLoading false].
Qed.

End StartupCheck.

(** ** A store that refuses deletions *)

(** C2 as stated fails: with a store that throws on deletion, a 401 and a
    refresh call answered with 400, the [catch] of the hook throws out of
    [clearTokens]: the caller observes the storage error instead of the
    401, and both tokens are still stored. *)
Lemma refresh_failure_deletion_counterexample :
  let run := response_rejected deletion_fails (api deletion_fails 1)
               (AxiosError (Some dashboard_request) (Some unauthorized)) signed_in in
  status unauthorized = 401 ∧ _retry dashboard_request = false ∧
  read_value deletion_fails signed_in REFRESH_TOKEN_KEY = JsString "R1" ∧
  refresh_fails (server deletion_fails
                   (log signed_in ++ [Store (GetItem REFRESH_TOKEN_KEY)])
                   GlobalAxios (refresh_request (JsString "R1"))) ∧
  run.2 = Throw SecureStoreError ∧
  store run.1 !! ACCESS_TOKEN_KEY = Some "A1" ∧
  store run.1 !! REFRESH_TOKEN_KEY = Some "R1" ∧
  (api deletion_fails 2 dashboard_request signed_in).2 = Throw SecureStoreError ∧
  ¬ (run.2 = Throw (AxiosError (Some (set_retry dashboard_request)) (Some unauthorized)) ∧
     store run.1 !! ACCESS_TOKEN_KEY = None ∧
     store run.1 !! REFRESH_TOKEN_KEY = None).
Proof.
  cbv zeta.
  assert (Hr : (response_rejected deletion_fails (api deletion_fails 1)
                  (AxiosError (Some dashboard_request) (Some unauthorized)) signed_in).2
               = Throw SecureStoreError) by (vm_compute; reflexivity).
  split; [reflexivity|]. split; [reflexivity|]. split; [vm_compute; reflexivity|].
  split; [left; vm_compute; reflexivity|].
  split; [exact Hr|]. split; [vm_compute; reflexivity|].
  split; [vm_compute; reflexivity|]. split; [vm_compute; reflexivity|].
  intros [H _]. rewrite Hr in H. discriminate.
Qed.

(** C7 as stated fails: at start-up with both tokens stored, no network
    and a store that throws on deletion, the profile fetch fails and
    [checkAuth] rejects with the storage error: both tokens are still
    stored (the loading flag is resolved all the same). *)
Lemma checkAuth_deletion_counterexample :
  let run := AuthContext.checkAuth offline_deletion_fails 2 cold_start in
  read_value offline_deletion_fails cold_start ACCESS_TOKEN_KEY = JsString "A1" ∧
  (∃ c, (AuthAPI.getProfile offline_deletion_fails 2
           (record_event (Store (GetItem ACCESS_TOKEN_KEY)) cold_start)).2
        = Throw (AxiosError (Some c) None)) ∧
  run.2 = Throw SecureStoreError ∧
  store run.1 !! ACCESS_TOKEN_KEY = Some "A1" ∧
  store run.1 !! REFRESH_TOKEN_KEY = Some "R1" ∧
  loading_updates (log run.1) = [false] ∧
  ¬ (store run.1 !! ACCESS_TOKEN_KEY = None ∧ store run.1 !! REFRESH_TOKEN_KEY = None).
Proof.
  cbv zeta.
  assert (Ha : store (AuthContext.checkAuth offline_deletion_fails 2 cold_start).1
               !! ACCESS_TOKEN_KEY = Some "A1") by (vm_compute; reflexivity).
  split; [vm_compute; reflexivity|].
  split; [eexists; vm_compute; reflexivity|].
  split; [vm_compute; reflexivity|]. split; [exact Ha|].
  split; [vm_compute; reflexivity|]. split; [vm_compute; reflexivity|].
  intros [H _]. rewrite Ha in H. discriminate.
Qed.
